(** * Leela Zero: the UCT search driver ([src/UCTSearch.cpp])

    A shallow embedding of the search coordinator: the recursive simulation
    [play_simulation], the loop body shared by the workers and the drivers,
    the move chooser [get_best_move] with its resignation test
    [should_resign], the limit setters and [set_gamestate]; then the loops
    of the worker, of [think] and of [ponder], the ends of the two drivers,
    and the logging code [get_pv], [dump_stats] and [dump_analysis].

    The search is modelled as run by one thread: the tree is a value that is
    passed in and returned, so the effects of other workers on the same nodes
    are outside the model. *)

From Stdlib Require Import ZArith Bool Lia Floats.SpecFloat Strings.String.
From stdpp Require Import base list.

Local Open Scope Z_scope.

(** ** C++ [float] as IEEE 754 binary32

    [spec_float] at precision 24 and exponent bound 128, with round to
    nearest even; every operation is evaluated in binary32 (no wider
    intermediate format, no fused multiply-add). *)
Module F32.

Definition float : Type := spec_float.

Definition prec : Z := 24.
Definition emax : Z := 128.

(** Conversion of an integer operand to [float]. *)
Definition of_Z (n : Z) : float := binary_normalize prec emax n 0 false.

Definition add : float -> float -> float := SFadd prec emax.
Definition sub : float -> float -> float := SFsub prec emax.
Definition mul : float -> float -> float := SFmul prec emax.
Definition div : float -> float -> float := SFdiv prec emax.

(** [x < y] and [x > y]; both are false when an operand is NaN. *)
Definition ltb (x y : float) : bool := SFltb x y.
Definition gtb (x y : float) : bool := SFltb y x.

(** [std::min(a, b)] is [(b < a) ? b : a]. *)
Definition min (a b : float) : float := if ltb b a then b else a.

(** The literals of the source. *)
Definition zero : float := S754_zero false.                    (* 0.0f  *)
Definition one : float := S754_finite false 8388608 (-23).     (* 1.0f  *)
Definition lit_0_01 : float := S754_finite false 10737418 (-30). (* 0.01f *)
Definition lit_0_6 : float := S754_finite false 10066330 (-24).  (* 0.6f  *)
Definition lit_0_5 : float := S754_finite false 8388608 (-24).   (* 0.5f  *)
Definition lit_0_25 : float := S754_finite false 8388608 (-25).  (* 0.25f *)
Definition lit_0_03 : float := S754_finite false 16106127 (-29). (* 0.03f *)

(** The binary32 value nearest to the decimal [n / d]. *)
Definition decimal (n d : Z) : float := div (of_Z n) (of_Z d).

End F32.

Abbreviation float := F32.float.

(** ** Machine integers *)

(** Conversion to [size_t] (64 bits, unsigned). *)
Definition to_size_t (x : Z) : Z := x mod 2 ^ 64.

(** Conversion to [int] (32 bits, two's complement). *)
Definition to_int (x : Z) : Z := (x + 2 ^ 31) mod 2 ^ 32 - 2 ^ 31.

Definition INT_MAX : Z := 2 ^ 31 - 1.

(** ** Configuration globals ([cfg_*]) *)
Record Config := mkConfig {
  cfg_max_playouts : Z;
  cfg_max_visits : Z;
  cfg_num_threads : Z;
  cfg_resignpct : Z;
  cfg_random_cnt : Z;
  cfg_noise : bool;
  cfg_dumbpass : bool;
  cfg_quiet : bool
}.

(** ** Pass flags

    Modelled from the spec: [passflag_t] and its constants are declared in
    UCTSearch.h; the flags NORMAL, NOPASS and NORESIGN are bits that may be
    OR-combined, NORMAL being the empty combination. *)
Definition NORMAL : Z := 0.
Definition NOPASS : Z := Z.shiftl 1 0.
Definition NORESIGN : Z := Z.shiftl 1 1.

(** A C++ integer used as a condition: true when non-zero. *)
Definition truthy (x : Z) : bool := negb (x =? 0).

(** ** SearchResult

    Modelled from the spec: the class is declared in UCTSearch.h; it carries
    (valid, evaluation), a default-constructed result is invalid, and the
    factories [from_eval] and [from_score] build valid results.  How a board
    score becomes an evaluation is the parameter [score_eval] below. *)
Record SearchResult := mkSearchResult {
  valid : bool;
  eval : float
}.

Definition SearchResult_default : SearchResult := mkSearchResult false F32.zero.

Definition from_eval (e : float) : SearchResult := mkSearchResult true e.

(** ** UCTNode

    Modelled from the spec: the node class lives in UCTNode.cpp.  Its state is
    the move that led to the node, the prior ("score"), the neural value,
    the running visit
    count, the running value sum, the virtual-loss counter, the invalidated
    flag (kept as its negation, [m_valid]) and the list of children. *)
#[warnings="-register-all"]
Inductive UCTNode : Type := mkUCTNode {
  m_move : Z;
  m_score : float;
  m_init_eval : float;
  m_visits : Z;
  m_blackevals : float;
  m_virtual_loss : Z;
  m_valid : bool;
  m_children : list UCTNode
}.

Definition has_children (n : UCTNode) : bool :=
  match m_children n with [] => false | _ :: _ => true end.

Definition get_move (n : UCTNode) : Z := m_move n.
Definition get_visits (n : UCTNode) : Z := m_visits n.
Definition get_score (n : UCTNode) : float := m_score n.
Definition first_visit (n : UCTNode) : bool := m_visits n =? 0.

(** [get_first_child] is a null pointer ([None]) when there is no child. *)
Definition get_first_child (n : UCTNode) : option UCTNode := head (m_children n).

Definition set_children (cs : list UCTNode) (n : UCTNode) : UCTNode :=
  mkUCTNode (m_move n) (m_score n) (m_init_eval n) (m_visits n) (m_blackevals n)
            (m_virtual_loss n) (m_valid n) cs.

(** The child at index [i] is written through the pointer [next]. *)
Definition set_child (i : nat) (c : UCTNode) (n : UCTNode) : UCTNode :=
  set_children (<[i := c]> (m_children n)) n.

Definition invalidate (n : UCTNode) : UCTNode :=
  mkUCTNode (m_move n) (m_score n) (m_init_eval n) (m_visits n) (m_blackevals n)
            (m_virtual_loss n) false (m_children n).

(** [update] accumulates one backup: one more visit, the evaluation added to
    the value sum. *)
Definition update (e : float) (n : UCTNode) : UCTNode :=
  mkUCTNode (m_move n) (m_score n) (m_init_eval n) (m_visits n + 1) (F32.add (m_blackevals n) e)
            (m_virtual_loss n) (m_valid n) (m_children n).

(** The length of the longest chain of children below a node. *)
Fixpoint height (n : UCTNode) : nat :=
  match n with
  | mkUCTNode _ _ _ _ _ _ _ cs => S (foldr (fun c h => Nat.max (height c) h) 0%nat cs)
  end.

(** ** External collaborators *)

(** The game-state module, as far as the search consumes it. *)
Class GameStateOps (GameState : Type) := {
  get_to_move : GameState -> Z;
  get_hash : GameState -> Z;
  get_komi : GameState -> float;
  get_passes : GameState -> Z;
  get_handicap : GameState -> Z;
  get_movenum : GameState -> Z;
  get_last_move : GameState -> Z;
  get_boardsize : GameState -> Z;
  final_score : GameState -> float;
  superko : GameState -> bool;
  play_move : Z -> GameState -> GameState;
  play_pass : GameState -> GameState;
  set_to_move : Z -> GameState -> GameState;
  start_clock : Z -> GameState -> GameState;
  set_timecontrol_boardsize : Z -> GameState -> GameState
}.

(** The operations of the node module that run the evaluator, the selection
    policy or the random generator. *)
Class NodePolicy (GameState : Type) := {
  (** [create_children nodecount state node]: success flag, reported
      evaluation, the node and the node count afterwards. *)
  create_children : Z -> GameState -> UCTNode -> bool * float * UCTNode * Z;
  eval_state : GameState -> UCTNode -> float;
  (** The index, among the node's children, of the child selected. *)
  uct_select_child : Z -> UCTNode -> option nat;
  get_eval : Z -> UCTNode -> float;
  sort_children : Z -> UCTNode -> UCTNode;
  randomize_first_proportionally : UCTNode -> UCTNode;
  get_nopass_child : GameState -> UCTNode -> option UCTNode;
  kill_superkos : GameState -> UCTNode -> UCTNode;
  dirichlet_noise : float -> float -> UCTNode -> UCTNode;
  count_nodes : UCTNode -> Z;
  (** [find_new_root(g, rootstate)]: the new root and the root state, which
      is passed by reference. *)
  find_new_root : GameState -> GameState -> UCTNode -> UCTNode * GameState
}.

(** The transposition table, a process-wide singleton. *)
Class TTableOps (TTable : Type) := {
  tt_sync : TTable -> Z -> float -> UCTNode -> UCTNode;
  tt_update : TTable -> Z -> float -> UCTNode -> TTable
}.

(** Further operations of the collaborators, used by the logging code and
    by the end of [think]. *)
Class DriverOps (GameState : Type) := {
  stop_clock : Z -> GameState -> GameState;
  max_time_for_move : Z -> GameState -> Z;
  move_to_text : GameState -> Z -> string;
  (** The index, among the node's children, of the child
      [get_best_root_child] refers to. *)
  get_best_root_child : Z -> UCTNode -> nat;
  (** [find_new_root(bestmove)]. *)
  find_new_root_move : Z -> UCTNode -> UCTNode
}.

(** ** Log output

    What [myprintf] is given by [dump_stats] (one entry per move listed)
    and by [dump_analysis]; the formatting is left out. *)
Record StatLine := mkStatLine {
  sl_move : string;
  sl_visits : Z;
  sl_eval_percent : float;
  sl_score_percent : float;
  sl_pv : string
}.

Record AnalysisLine := mkAnalysisLine {
  al_playouts : Z;
  al_winrate : float;
  al_pv : string
}.

(** [100.0f]. *)
Definition lit_100 : float := F32.of_Z 100.

(** Words joined by single spaces. *)
Fixpoint join_words (words : list string) : string :=
  match words with
  | [] => EmptyString
  | [w] => w
  | w :: rest => String.append w (String.append " " (join_words rest))
  end.

(** ** The search object *)
Record UCTSearch (GameState : Type) := mkUCTSearch {
  m_rootstate : GameState;
  m_root : UCTNode;
  m_nodes : Z;
  m_playouts : Z;
  m_run : bool;
  m_maxplayouts : Z;
  m_maxvisits : Z
}.

Arguments mkUCTSearch {GameState}.
Arguments m_rootstate {GameState}.
Arguments m_root {GameState}.
Arguments m_nodes {GameState}.
Arguments m_playouts {GameState}.
Arguments m_run {GameState}.
Arguments m_maxplayouts {GameState}.
Arguments m_maxvisits {GameState}.

(** ** Calls made on tree nodes

    [play_simulation] reports the calls it makes on nodes, in order.  A
    simulation walks one chain of the tree, so a node is named by its depth
    below the node the simulation was started at. *)
Inductive NodeCall : Type :=
| CallVirtualLoss
| CallVirtualLossUndo
| CallCreateChildren
| CallEvalState
| CallUpdate
| CallInvalidate.

Definition NodeCall_eqb (a b : NodeCall) : bool :=
  match a, b with
  | CallVirtualLoss, CallVirtualLoss
  | CallVirtualLossUndo, CallVirtualLossUndo
  | CallCreateChildren, CallCreateChildren
  | CallEvalState, CallEvalState
  | CallUpdate, CallUpdate
  | CallInvalidate, CallInvalidate => true
  | _, _ => false
  end.

Definition Event : Type := nat * NodeCall.

(** The calls of a recursive invocation happen one level further down. *)
Definition deeper (evs : list Event) : list Event :=
  map (fun e : Event => (S (fst e), snd e)) evs.

(** How many times [c] was called on the node at depth [d]. *)
Definition calls_on (d : nat) (c : NodeCall) (evs : list Event) : nat :=
  length (List.filter (fun e : Event => Nat.eqb (fst e) d && NodeCall_eqb (snd e) c) evs).

(** How many times [c] was called, on any node. *)
Definition calls_of (c : NodeCall) (evs : list Event) : nat :=
  length (List.filter (fun e : Event => NodeCall_eqb (snd e) c) evs).

(** ** A small concrete set of collaborators

    A position that only keeps the attributes the search reads, a policy
    that expands every leaf into two children and selects the first child not
    yet invalidated, and a transposition table that remembers nothing.  They
    serve to run the definitions on concrete inputs. *)
Module Sample.

Record Position := mkPosition {
  p_to_move : Z;
  p_hash : Z;
  p_komi : float;
  p_passes : Z;
  p_handicap : Z;
  p_movenum : Z;
  p_last_move : Z;
  p_boardsize : Z;
  p_score : float
}.

(** The move sentinels and colours of the sample board. *)
Definition PASS : Z := -1.
Definition RESIGN : Z := -2.
Definition BLACK : Z := 0.
Definition WHITE : Z := 1.

(** On the sample board the point 13 repeats an earlier position. *)
Definition ko_point : Z := 13.

#[export] Instance position_ops : GameStateOps Position := {|
  get_to_move := p_to_move;
  get_hash := p_hash;
  get_komi := p_komi;
  get_passes := p_passes;
  get_handicap := p_handicap;
  get_movenum := p_movenum;
  get_last_move := p_last_move;
  get_boardsize := p_boardsize;
  final_score := p_score;
  superko := fun p => p_last_move p =? ko_point;
  play_move := fun m p =>
    mkPosition (1 - p_to_move p) (p_hash p + m + 1) (p_komi p) 0 (p_handicap p)
               (p_movenum p + 1) m (p_boardsize p) (p_score p);
  play_pass := fun p =>
    mkPosition (1 - p_to_move p) (p_hash p) (p_komi p) (p_passes p + 1)
               (p_handicap p) (p_movenum p + 1) PASS (p_boardsize p) (p_score p);
  set_to_move := fun c p =>
    mkPosition c (p_hash p) (p_komi p) (p_passes p) (p_handicap p)
               (p_movenum p) (p_last_move p) (p_boardsize p) (p_score p);
  start_clock := fun _ p => p;
  set_timecontrol_boardsize := fun _ p => p
|}.

Definition leaf (move : Z) (visits : Z) : UCTNode :=
  mkUCTNode move F32.zero F32.lit_0_5 visits F32.zero 0 true [].

Definition branch (move : Z) (visits : Z) (cs : list UCTNode) : UCTNode :=
  mkUCTNode move F32.zero F32.lit_0_5 visits F32.zero 0 true cs.

Fixpoint first_valid (i : nat) (cs : list UCTNode) : option nat :=
  match cs with
  | [] => None
  | c :: cs' => if m_valid c then Some i else first_valid (S i) cs'
  end.

#[export] Instance policy : NodePolicy Position := {|
  create_children := fun nodes _ n =>
    if has_children n then (false, F32.zero, n, nodes)
    else (true, F32.lit_0_5, set_children [leaf 3 0; leaf 4 0] n, nodes + 2);
  eval_state := fun _ n => m_init_eval n;
  uct_select_child := fun _ n => first_valid 0 (m_children n);
  get_eval := fun _ n => m_init_eval n;
  sort_children := fun _ n => n;
  randomize_first_proportionally := fun n => n;
  get_nopass_child := fun _ n =>
    List.find (fun c => negb (m_move c =? PASS)) (m_children n);
  kill_superkos := fun _ n => n;
  dirichlet_noise := fun _ _ n => n;
  count_nodes := fun n => 1 + Z.of_nat (length (m_children n));
  find_new_root := fun g _ n => (n, g)
|}.

#[export] Instance table_ops : TTableOps unit := {|
  tt_sync := fun _ _ _ n => n;
  tt_update := fun _ _ _ _ => tt
|}.

(** A 19x19 position at move [movenum], Black to move, no handicap. *)
Definition position (movenum : Z) (last_move : Z) (passes : Z) (score : float)
  : Position :=
  mkPosition BLACK 10 (F32.decimal 15 2) passes 0 movenum last_move 19 score.

(** One thread, default resign percentage, no randomisation, no noise,
    pass heuristics on. *)
Definition config (max_playouts : Z) : Config :=
  mkConfig max_playouts 0 1 (-1) 0 false false true.

Definition MAX_TREE_SIZE : Z := 100.
Definition VIRTUAL_LOSS_COUNT : Z := 3.

(** A win, a loss or a draw for Black. *)
Definition score_eval (score : float) : float :=
  if F32.gtb score F32.zero then F32.one
  else if F32.ltb score F32.zero then F32.zero
  else F32.lit_0_5.

Definition search (root : UCTNode) (pos : Position) : UCTSearch Position :=
  mkUCTSearch pos root 3 0 false INT_MAX INT_MAX.

(** A root whose first child is the ko point, and one whose children have
    been visited. *)
Definition ko_root : UCTNode := branch PASS 5 [leaf ko_point 0; leaf 4 0].
Definition deep_root : UCTNode :=
  branch PASS 9 [branch 4 6 [leaf ko_point 0; leaf 7 0]; leaf 5 3].
Definition visited_root (visits : Z) : UCTNode :=
  branch PASS visits [leaf 4 7; leaf 5 3].
Definition fresh_root : UCTNode := branch PASS 0 [leaf 4 0; leaf 5 0].
Definition settled_root : UCTNode :=
  branch PASS 9 [branch 4 6 [invalidate (leaf ko_point 0); leaf 7 0]; leaf 5 3].

(** The index of the first child with the most visits. *)
Fixpoint most_visited (i best : nat) (most : Z) (cs : list UCTNode) : nat :=
  match cs with
  | [] => best
  | c :: cs' =>
      if most <? m_visits c then most_visited (S i) i (m_visits c) cs'
      else most_visited (S i) best most cs'
  end.

Definition move_text (m : Z) : string :=
  if m =? PASS then "pass"%string
  else String (Ascii.ascii_of_nat (Z.to_nat (65 + m))) EmptyString.

#[export] Instance driver_ops : DriverOps Position := {|
  stop_clock := fun _ p => p;
  max_time_for_move := fun _ _ => 500;
  move_to_text := fun _ m => move_text m;
  get_best_root_child := fun _ n => most_visited 0 0 (-1) (m_children n);
  find_new_root_move := fun m n =>
    match List.find (fun c => m_move c =? m) (m_children n) with
    | Some c => c
    | None => leaf m 0
    end
|}.

(** A root with three visited children, a grandchild, and an unvisited
    fourth child. *)
Definition analysed_root : UCTNode :=
  branch PASS 60 [branch 4 40 [leaf 7 12; leaf 8 0]; leaf 5 15; leaf 6 5; leaf 9 0].

(** A root whose second and third children were never visited. *)
Definition sparse_root : UCTNode := branch PASS 50 [leaf 4 50; leaf 5 0; leaf 6 0].

Definition loud (max_playouts : Z) : Config :=
  mkConfig max_playouts 0 1 (-1) 0 false false false.

(** A root whose most visited child is the pass. *)
Definition pass_root : UCTNode := branch PASS 50 [leaf PASS 30; leaf 5 20].

(** Pass heuristics off. *)
Definition dumb : Config := mkConfig 0 0 1 (-1) 0 false true true.


End Sample.

Section Search.

Context {GameState TTable : Type}.
Context {GS : GameStateOps GameState}.
Context {NP : NodePolicy GameState}.
Context {TT : TTableOps TTable}.

(** Constants of the board module (FastBoard.h): the move sentinels and
    the colours. *)
Variables PASS RESIGN BLACK WHITE : Z.

(** The hard cap on the size of the tree, and the weight of one virtual
    loss (both declared in headers). *)
Variable MAX_TREE_SIZE : Z.
Variable VIRTUAL_LOSS_COUNT : Z.

(** The evaluation [SearchResult::from_score] gives to a board score. *)
Variable score_eval : float -> float.

(** The configuration globals. *)
Variable cfg : Config.

Definition from_score (board_score : float) : SearchResult :=
  mkSearchResult true (score_eval board_score).

(** Modelled from the spec: virtual loss is a counter on the node, raised
    during the descent and lowered again on return. *)
Definition virtual_loss (n : UCTNode) : UCTNode :=
  mkUCTNode (m_move n) (m_score n) (m_init_eval n) (m_visits n) (m_blackevals n)
            (m_virtual_loss n + VIRTUAL_LOSS_COUNT) (m_valid n) (m_children n).

Definition virtual_loss_undo (n : UCTNode) : UCTNode :=
  mkUCTNode (m_move n) (m_score n) (m_init_eval n) (m_visits n) (m_blackevals n)
            (m_virtual_loss n - VIRTUAL_LOSS_COUNT) (m_valid n) (m_children n).

(** *** [set_playout_limit], [set_visit_limit] and the constructor

    The two caps are [int] members, like the arguments they are set from. *)
Definition set_playout_limit (playouts : Z) (s : UCTSearch GameState)
  : UCTSearch GameState :=
  if playouts =? 0 then
    mkUCTSearch (m_rootstate s) (m_root s) (m_nodes s) (m_playouts s) (m_run s)
                INT_MAX (m_maxvisits s)
  else
    mkUCTSearch (m_rootstate s) (m_root s) (m_nodes s) (m_playouts s) (m_run s)
                playouts (m_maxvisits s).

Definition set_visit_limit (visits : Z) (s : UCTSearch GameState)
  : UCTSearch GameState :=
  if visits =? 0 then
    mkUCTSearch (m_rootstate s) (m_root s) (m_nodes s) (m_playouts s) (m_run s)
                (m_maxplayouts s) INT_MAX
  else
    mkUCTSearch (m_rootstate s) (m_root s) (m_nodes s) (m_playouts s) (m_run s)
                (m_maxplayouts s) visits.

(** [UCTSearch::UCTSearch()]: the limits are set from the configuration and
    the root is a fresh node [UCTNode(PASS, 0.0f, 0.5f)].  The members that
    the constructor does not assign are arguments. *)
Definition UCTSearch_new (rootstate : GameState) (nodes playouts : Z) (run : bool)
           (maxplayouts maxvisits : Z)
  : UCTSearch GameState :=
  let s := mkUCTSearch rootstate
             (mkUCTNode PASS F32.zero F32.lit_0_5 0 F32.zero 0 true [])
             nodes playouts run maxplayouts maxvisits in
  let s := set_playout_limit (cfg_max_playouts cfg) s in
  set_visit_limit (cfg_max_visits cfg) s.

(** *** [set_gamestate] *)
Definition set_gamestate (g : GameState) (s : UCTSearch GameState)
  : UCTSearch GameState :=
  let playouts := 0 in
  let '(root, rootstate) :=
    if negb (SFeqb (get_komi (m_rootstate s)) (get_komi g))
       || negb (get_hash (m_rootstate s) =? get_hash g)
    then find_new_root g (m_rootstate s) (m_root s)
    else (m_root s, m_rootstate s) in
  mkUCTSearch rootstate root (count_nodes root) playouts (m_run s)
              (m_maxplayouts s) (m_maxvisits s).

(** *** [play_simulation] *)

(** Lines 69-83: what is done at a node without children. *)
Definition expand_leaf (nodes : Z) (currstate : GameState) (node : UCTNode)
           (result : SearchResult)
  : SearchResult * UCTNode * Z * list Event :=
  if negb (has_children node) then
    if get_passes currstate >=? 2 then
      let score := final_score currstate in
      (from_score score, node, nodes, [])
    else if nodes <? MAX_TREE_SIZE then
      let '(success, e, node', nodes') := create_children nodes currstate node in
      (if success then from_eval e else result, node', nodes',
       [(0%nat, CallCreateChildren)])
    else
      let e := eval_state currstate node in
      (from_eval e, node, nodes, [(0%nat, CallEvalState)])
  else (result, node, nodes, []).

(** Lines 106-110: backup, undoing the virtual loss, writing the
    transposition table. *)
Definition backup (table : TTable) (hash : Z) (komi : float)
           (result : SearchResult) (node : UCTNode)
  : UCTNode * TTable * list Event :=
  let '(node, ev) :=
    if valid result then (update (eval result) node, [(0%nat, CallUpdate)])
    else (node, []) in
  let node := virtual_loss_undo node in
  (node, tt_update table hash komi node, ev ++ [(0%nat, CallVirtualLossUndo)]).

(** The child [uct_select_child] points to, with its index; [None] is the
    null pointer. *)
Definition select_child (color : Z) (node : UCTNode) : option (nat * UCTNode) :=
  match uct_select_child color node with
  | Some i =>
      match m_children node !! i with
      | Some next => Some (i, next)
      | None => None
      end
  | None => None
  end.

(** What a call of [play_simulation] leaves behind: the result returned,
    the node and the state it was given (both are modified in place), the
    node count, the transposition table, and the calls made on nodes. *)
Record Outcome := mkOutcome {
  out_result : SearchResult;
  out_node : UCTNode;
  out_state : GameState;
  out_nodes : Z;
  out_table : TTable;
  out_calls : list Event
}.

(** The recursive call, as seen by the body below. *)
Definition Self : Type := TTable -> Z -> GameState -> UCTNode -> option Outcome.

(** [result = play_simulation(currstate, next)], where [next] is the child
    of [node] at index [i]. *)
Definition recurse (self : Self) (table : TTable) (nodes : Z)
           (currstate : GameState) (i : nat) (next node : UCTNode)
  : option Outcome :=
  match self table nodes currstate next with
  | Some o =>
      Some (mkOutcome (out_result o) (set_child i (out_node o) node)
                      (out_state o) (out_nodes o) (out_table o)
                      (deeper (out_calls o)))
  | None => None
  end.

(** Lines 85-104: selection of a child and descent into it. *)
Definition descend (self : Self) (table : TTable) (nodes : Z)
           (currstate : GameState) (color : Z) (node : UCTNode)
           (result : SearchResult)
  : option Outcome :=
  if has_children node && negb (valid result) then
    match select_child color node with
    | Some (i, next) =>
        let move := get_move next in
        if negb (move =? PASS) then
          let currstate := play_move move currstate in
          if negb (superko currstate) then
            recurse self table nodes currstate i next node
          else
            Some (mkOutcome result (set_child i (invalidate next) node)
                            currstate nodes table [(1%nat, CallInvalidate)])
        else
          let currstate := play_pass currstate in
          recurse self table nodes currstate i next node
    | None => Some (mkOutcome result node currstate nodes table [])
    end
  else Some (mkOutcome result node currstate nodes table []).

(** The body of [play_simulation] (lines 59-113). *)
Definition simulation (self : Self) (table : TTable) (nodes : Z)
           (currstate : GameState) (node : UCTNode)
  : option Outcome :=
  let color := get_to_move currstate in
  let hash := get_hash currstate in
  let komi := get_komi currstate in
  let result := SearchResult_default in
  let node := tt_sync table hash komi node in
  let node := virtual_loss node in
  let '(result, node, nodes, ev_expand) :=
    expand_leaf nodes currstate node result in
  match descend self table nodes currstate color node result with
  | Some d =>
      let '(node, table, ev_backup) :=
        backup (out_table d) hash komi (out_result d) (out_node d) in
      Some (mkOutcome (out_result d) node (out_state d) (out_nodes d) table
              ((0%nat, CallVirtualLoss) :: ev_expand ++ out_calls d ++ ev_backup))
  | None => None
  end.

(** [fuel] bounds the depth of the recursion; [None] is running out of it. *)
Fixpoint play_simulation (fuel : nat) : Self :=
  match fuel with
  | O => fun _ _ _ _ => None
  | S fuel' => simulation (play_simulation fuel')
  end.

(** *** The loop body of [UCTWorker::operator()], [think] and [ponder] *)

Definition increment_playouts (s : UCTSearch GameState) : UCTSearch GameState :=
  mkUCTSearch (m_rootstate s) (m_root s) (m_nodes s) (m_playouts s + 1) (m_run s)
              (m_maxplayouts s) (m_maxvisits s).

Definition is_running (s : UCTSearch GameState) : bool := m_run s.

Definition playout_or_visit_limit_reached (s : UCTSearch GameState) : bool :=
  (m_playouts s >=? m_maxplayouts s) || (get_visits (m_root s) >=? m_maxvisits s).

(** One simulation from the root on a copy of the root state, counted as a
    playout when its result is valid. *)
Definition simulate_once (fuel : nat) (table : TTable) (s : UCTSearch GameState)
  : option (SearchResult * UCTSearch GameState * TTable * list Event) :=
  let currstate := m_rootstate s in
  match play_simulation fuel table (m_nodes s) currstate (m_root s) with
  | Some o =>
      let s := mkUCTSearch (m_rootstate s) (out_node o) (out_nodes o)
                           (m_playouts s) (m_run s)
                           (m_maxplayouts s) (m_maxvisits s) in
      let s := if valid (out_result o) then increment_playouts s else s in
      Some (out_result o, s, out_table o, out_calls o)
  | None => None
  end.

(** *** [should_resign] *)
Definition should_resign (s : UCTSearch GameState) (passflag : Z) (bestscore : float)
  : bool :=
  if truthy (Z.land passflag NORESIGN) then
    (* resign not allowed *)
    false
  else if cfg_resignpct cfg =? 0 then
    (* resign not allowed *)
    false
  else
    let visits := get_visits (m_root s) in
    if visits <? Z.min 500 (cfg_max_playouts cfg) then
      (* low visits *)
      false
    else
      let board_squares :=
        to_size_t (get_boardsize (m_rootstate s) * get_boardsize (m_rootstate s)) in
      let move_threshold := board_squares / 4 in
      let movenum := get_movenum (m_rootstate s) in
      if movenum <=? move_threshold then
        (* too early in game to resign *)
        false
      else
        let color := get_to_move (m_rootstate s) in
        let is_default_cfg_resign := cfg_resignpct cfg <? 0 in
        let resign_threshold :=
          F32.mul F32.lit_0_01
                  (F32.of_Z (if is_default_cfg_resign then 10 else cfg_resignpct cfg)) in
        if F32.gtb bestscore resign_threshold then
          (* eval > cfg_resign *)
          false
        else if (get_handicap (m_rootstate s) >? 0)
                && (color =? WHITE)
                && is_default_cfg_resign then
          let handicap_resign_threshold :=
            F32.div resign_threshold
                    (F32.of_Z (1 + get_handicap (m_rootstate s))) in
          (* Blend the thresholds for the first ~215 moves. *)
          let blend_ratio :=
            F32.min F32.one
                    (F32.div (F32.of_Z movenum)
                             (F32.mul F32.lit_0_6 (F32.of_Z board_squares))) in
          let blended_resign_threshold :=
            F32.add (F32.mul blend_ratio resign_threshold)
                    (F32.mul (F32.sub (F32.of_Z 1) blend_ratio)
                             handicap_resign_threshold) in
          if F32.gtb bestscore blended_resign_threshold then
            (* Allow lower eval for white in handicap games *)
            false
          else true
        else true.

(** *** [get_best_move] *)

(** "Do we lose by passing?" *)
Definition passing_loses (score : float) (color : Z) : bool :=
  (F32.gtb score F32.zero && (color =? WHITE))
  || (F32.ltb score F32.zero && (color =? BLACK)).

(** The move and score of the child [get_nopass_child] found. *)
Definition nopass_choice (color : Z) (nopass : UCTNode) : Z * float :=
  (get_move nopass,
   if first_visit nopass then F32.one else get_eval color nopass).

(** Lines 211-221: the root's children are sorted, best first, and early in
    the game the first one is drawn in proportion to the playout counts. *)
Definition order_root (s : UCTSearch GameState) : UCTSearch GameState :=
  let color := get_to_move (m_rootstate s) in
  (* Make sure best is first *)
  let root := sort_children color (m_root s) in
  let movenum := to_int (get_movenum (m_rootstate s)) in
  let root :=
    if movenum <? cfg_random_cnt cfg then randomize_first_proportionally root
    else root in
  mkUCTSearch (m_rootstate s) root (m_nodes s) (m_playouts s) (m_run s)
              (m_maxplayouts s) (m_maxvisits s).

(** The result is [None] when the root has no child: the source then
    dereferences a null pointer.  Otherwise it is the move returned, with
    the search object (whose root had its children reordered). *)
Definition get_best_move (passflag : Z) (s : UCTSearch GameState)
  : option (Z * UCTSearch GameState) :=
  let color := get_to_move (m_rootstate s) in
  let s := order_root s in
  let root := m_root s in
  match get_first_child root with
  | None => None
  | Some first =>
      let bestmove := get_move first in
      if first_visit first then Some (bestmove, s)
      else
        let bestscore := get_eval color first in
        let '(bestmove, bestscore) :=
          if truthy (Z.land passflag NOPASS) then
            if bestmove =? PASS then
              match get_nopass_child (m_rootstate s) root with
              | Some nopass => nopass_choice color nopass
              | None => (bestmove, bestscore)
              end
            else (bestmove, bestscore)
          else
            if negb (cfg_dumbpass cfg) && (bestmove =? PASS) then
              let score := final_score (m_rootstate s) in
              if passing_loses score color then
                match get_nopass_child (m_rootstate s) root with
                | Some nopass => nopass_choice color nopass
                | None => (bestmove, bestscore)
                end
              else (bestmove, bestscore)
            else if negb (cfg_dumbpass cfg)
                    && (get_last_move (m_rootstate s) =? PASS) then
              let score := final_score (m_rootstate s) in
              if passing_loses score color then (bestmove, bestscore)
              else (PASS, bestscore)
            else (bestmove, bestscore) in
        (* if we aren't passing, should we consider resigning? *)
        let bestmove :=
          if negb (bestmove =? PASS) then
            if should_resign s passflag bestscore then RESIGN else bestmove
          else bestmove in
        Some (bestmove, s)
  end.

(** *** The start of [think] and of [ponder]

    [think] up to the point where the workers are launched (lines 382-414);
    the second component is [root_eval]. *)
Definition think_begin (color : Z) (g : GameState) (s : UCTSearch GameState)
  : UCTSearch GameState * float :=
  let s := set_gamestate g s in
  let rootstate := start_clock color (m_rootstate s) in
  let rootstate := set_to_move color rootstate in
  let rootstate := set_timecontrol_boardsize (get_boardsize rootstate) rootstate in
  let '(root_eval, root, nodes) :=
    if negb (has_children (m_root s)) then
      let '(_, e, root, nodes) := create_children (m_nodes s) rootstate (m_root s) in
      (e, root, nodes)
    else (get_eval color (m_root s), m_root s, m_nodes s) in
  let root := kill_superkos rootstate root in
  let root :=
    if cfg_noise cfg then dirichlet_noise F32.lit_0_25 F32.lit_0_03 root else root in
  (mkUCTSearch rootstate root nodes (m_playouts s) true
               (m_maxplayouts s) (m_maxvisits s),
   root_eval).

(** [ponder] up to the same point (lines 475-477). *)
Definition ponder_begin (g : GameState) (s : UCTSearch GameState)
  : UCTSearch GameState :=
  let s := set_gamestate g s in
  mkUCTSearch (m_rootstate s) (m_root s) (m_nodes s) (m_playouts s) true
              (m_maxplayouts s) (m_maxvisits s).

(** *** Conditions on the collaborators and on a simulation *)

(** The transposition sync and the expansion leave the virtual-loss
    counter of the node alone. *)
Definition sync_keeps_virtual_loss : Prop :=
  forall table hash komi n,
    m_virtual_loss (tt_sync table hash komi n) = m_virtual_loss n.

Definition create_keeps_virtual_loss : Prop :=
  forall nodes st n,
    m_virtual_loss (snd (fst (create_children nodes st n))) = m_virtual_loss n.

(** The transposition sync leaves the children alone, and an expansion
    that fails adds none (no other thread is expanding the node). *)
Definition sync_keeps_children : Prop :=
  forall table hash komi n,
    m_children (tt_sync table hash komi n) = m_children n.

Definition failed_create_adds_nothing : Prop :=
  forall nodes st n,
    fst (fst (fst (create_children nodes st n))) = false ->
    m_children (snd (fst (create_children nodes st n))) = m_children n.

(** The virtual-loss discipline of one call on [node] with outcome [o]:
    one virtual loss and one undo on the node itself, as many undos as
    virtual losses on every node below, and the counter of the node back
    at its value. *)
Definition virtual_loss_discipline (node : UCTNode) (o : Outcome) : Prop :=
  calls_on 0 CallVirtualLoss (out_calls o) = 1%nat
  /\ calls_on 0 CallVirtualLossUndo (out_calls o) = 1%nat
  /\ (forall d, calls_on d CallVirtualLoss (out_calls o)
                = calls_on d CallVirtualLossUndo (out_calls o))
  /\ m_virtual_loss (out_node o) = m_virtual_loss node.

(** A simulation that invalidated a child returns an invalid result, and
    a simulation with an invalid result updated no node. *)
Definition invalid_discipline (o : Outcome) : Prop :=
  ((0 < calls_of CallInvalidate (out_calls o))%nat -> valid (out_result o) = false)
  /\ (valid (out_result o) = false -> calls_of CallUpdate (out_calls o) = 0%nat).

(** The expansion leaves the visit count of the node alone. *)
Definition create_keeps_visits : Prop :=
  forall nodes st n,
    m_visits (snd (fst (create_children nodes st n))) = m_visits n.

(** Lines 234-310 of [get_best_move]: the move and the score once the pass
    rules have been applied to the visited first child [first]. *)
Definition pass_adjusted (passflag : Z) (s : UCTSearch GameState) (first : UCTNode)
  : Z * float :=
  let color := get_to_move (m_rootstate s) in
  let root := m_root s in
  let bestmove := get_move first in
  let bestscore := get_eval color first in
  if truthy (Z.land passflag NOPASS) then
    if bestmove =? PASS then
      match get_nopass_child (m_rootstate s) root with
      | Some nopass => nopass_choice color nopass
      | None => (bestmove, bestscore)
      end
    else (bestmove, bestscore)
  else
    if negb (cfg_dumbpass cfg) && (bestmove =? PASS) then
      let score := final_score (m_rootstate s) in
      if passing_loses score color then
        match get_nopass_child (m_rootstate s) root with
        | Some nopass => nopass_choice color nopass
        | None => (bestmove, bestscore)
        end
      else (bestmove, bestscore)
    else if negb (cfg_dumbpass cfg)
            && (get_last_move (m_rootstate s) =? PASS) then
      let score := final_score (m_rootstate s) in
      if passing_loses score color then (bestmove, bestscore)
      else (PASS, bestscore)
    else (bestmove, bestscore).

(** Lines 312-319: the resignation step. *)
Definition resign_step (passflag : Z) (s : UCTSearch GameState)
           (choice : Z * float) : Z :=
  if negb (fst choice =? PASS) then
    if should_resign s passflag (snd choice) then RESIGN else fst choice
  else fst choice.

(** *** [get_pv], [dump_stats] and [dump_analysis] *)

Context {DO : DriverOps GameState}.

(** [get_pv(state, parent)]: the string returned and the state, which is
    played forward in place.  [None] is running out of fuel, or a best child
    that is not among the children. *)
Fixpoint get_pv (fuel : nat) (state : GameState) (parent : UCTNode) {struct fuel}
  : option (string * GameState) :=
  match fuel with
  | O => None
  | S fuel' =>
      if negb (has_children parent) then Some (EmptyString, state)
      else
        match m_children parent !! get_best_root_child (get_to_move state) parent with
        | None => None
        | Some best_child =>
            if first_visit best_child then Some (EmptyString, state)
            else
              let best_move := get_move best_child in
              let res := move_to_text state best_move in
              let state := play_move best_move state in
              match get_pv fuel' state best_child with
              | Some (next, state) =>
                  Some (match next with
                        | EmptyString => res
                        | _ => String.append res (String.append " " next)
                        end,
                        state)
              | None => None
              end
        end
  end.

(** The chain of best children that [get_pv] follows: each with the state
    it is reached from. *)
Fixpoint pv_chain (fuel : nat) (state : GameState) (parent : UCTNode) {struct fuel}
  : list (GameState * UCTNode) :=
  match fuel with
  | O => []
  | S fuel' =>
      match m_children parent !! get_best_root_child (get_to_move state) parent with
      | None => []
      | Some best_child =>
          if first_visit best_child then []
          else (state, best_child)
                 :: pv_chain fuel' (play_move (get_move best_child) state) best_child
      end
  end.

(** [dump_analysis(playouts)]. *)
Definition dump_analysis (fuel : nat) (playouts : Z) (s : UCTSearch GameState)
  : option (list AnalysisLine) :=
  if cfg_quiet cfg then Some []
  else
    let tempstate := m_rootstate s in
    let color := get_to_move tempstate in
    match get_pv fuel tempstate (m_root s) with
    | Some (pvstring, _) =>
        let winrate := F32.mul lit_100 (get_eval color (m_root s)) in
        Some [mkAnalysisLine playouts winrate pvstring]
    | None => None
    end.

(** The loop of [dump_stats] over the children (lines 130-151);
    [movecount] is the counter before the child at the head is looked at. *)
Fixpoint dump_stats_loop (fuel : nat) (state : GameState) (color : Z)
         (movecount : Z) (children : list UCTNode) {struct children}
  : option (list StatLine) :=
  match children with
  | [] => Some []
  | node :: rest =>
      let movecount := movecount + 1 in
      (* Always display at least two moves. *)
      if (movecount >? 2) && (get_visits node =? 0) then Some []
      else
        let tmp := move_to_text state (get_move node) in
        let tmpstate := play_move (get_move node) state in
        match get_pv fuel tmpstate node with
        | Some (pv, _) =>
            let line :=
              mkStatLine tmp (get_visits node)
                         (F32.mul (get_eval color node) lit_100)
                         (F32.mul (get_score node) lit_100)
                         (String.append tmp (String.append " " pv)) in
            match dump_stats_loop fuel state color movecount rest with
            | Some lines => Some (line :: lines)
            | None => None
            end
        | None => None
        end
  end.

(** [dump_stats(state, parent)]: the lines logged and the parent, whose
    children it sorts.  [None] also stands for the null pointer dereferenced
    when sorting leaves no first child. *)
Definition dump_stats (fuel : nat) (state : GameState) (parent : UCTNode)
  : option (list StatLine * UCTNode) :=
  if cfg_quiet cfg || negb (has_children parent) then Some ([], parent)
  else
    let color := get_to_move state in
    (* sort children, put best move on top *)
    let parent := sort_children color parent in
    match get_first_child parent with
    | None => None
    | Some first =>
        if first_visit first then Some ([], parent)
        else
          match dump_stats_loop fuel state color 0 (m_children parent) with
          | Some lines => Some (lines, parent)
          | None => None
          end
    end.

(** *** The loops

    Each loop is modelled as run alone: no other thread changes the search
    object meanwhile.  The results of the simulations run are listed first
    to last. *)


(** The foreground loop of [think] (lines 421-443).  [clock] lists the
    elapsed hundredths of a second read in the successive iterations; the
    loop cannot go on when it is used up. *)
Fixpoint think_loop (fuel : nat) (time_for_move : Z) (clock : list Z)
         (last_update : Z) (table : TTable) (s : UCTSearch GameState)
         {struct clock}
  : option (UCTSearch GameState * TTable * list SearchResult * list AnalysisLine) :=
  match clock with
  | [] => None
  | elapsed_centis :: clock' =>
      match simulate_once fuel table s with
      | Some (result, s, table, _) =>
          (* output some stats every few seconds *)
          let update := elapsed_centis - last_update >? 250 in
          match (if update then dump_analysis fuel (to_int (m_playouts s)) s
                 else Some []) with
          | Some log =>
              let last_update := if update then elapsed_centis else last_update in
              let keeprunning := is_running s in
              let keeprunning := keeprunning && (elapsed_centis <? time_for_move) in
              let keeprunning :=
                keeprunning && negb (playout_or_visit_limit_reached s) in
              if keeprunning then
                match think_loop fuel time_for_move clock' last_update table s with
                | Some (s, table, results, logs) =>
                    Some (s, table, result :: results, log ++ logs)
                | None => None
                end
              else Some (s, table, [result], log)
          | None => None
          end
      | None => None
      end
  end.


(** *** The end of [think] and of [ponder] *)

Definition stop_search (s : UCTSearch GameState) : UCTSearch GameState :=
  mkUCTSearch (m_rootstate s) (m_root s) (m_nodes s) (m_playouts s) false
              (m_maxplayouts s) (m_maxvisits s).

(** [think] from "stop the search" on (lines 445-471), the workers having
    been joined: the move returned, the search object, the lines logged by
    [dump_stats].  [Training::record] only reads the state and the tree. *)
Definition think_end (fuel : nat) (color passflag : Z) (s : UCTSearch GameState)
  : option (Z * UCTSearch GameState * list StatLine) :=
  let s := stop_search s in
  let s := mkUCTSearch (stop_clock color (m_rootstate s)) (m_root s) (m_nodes s)
                       (m_playouts s) (m_run s) (m_maxplayouts s) (m_maxvisits s) in
  if negb (has_children (m_root s)) then Some (PASS, s, [])
  else
    match dump_stats fuel (m_rootstate s) (m_root s) with
    | Some (lines, root) =>
        let s := mkUCTSearch (m_rootstate s) root (m_nodes s) (m_playouts s)
                             (m_run s) (m_maxplayouts s) (m_maxvisits s) in
        match get_best_move passflag s with
        | Some (bestmove, s) =>
            let rootstate := play_move bestmove (m_rootstate s) in
            let root := find_new_root_move bestmove (m_root s) in
            Some (bestmove,
                  mkUCTSearch rootstate root (m_nodes s) (m_playouts s) (m_run s)
                              (m_maxplayouts s) (m_maxvisits s),
                  lines)
        | None => None
        end
    | None => None
    end.


(** [think] and [ponder] as the foreground thread runs them when no worker
    is launched ([cfg_num_threads] at most 1): what is returned, the search
    object and the table left behind, the results of the simulations, and
    the log. *)
Record Searched (A : Type) := mkSearched {
  searched_value : A;
  searched_search : UCTSearch GameState;
  searched_table : TTable;
  searched_results : list SearchResult;
  searched_analysis : list AnalysisLine;
  searched_stats : list StatLine
}.

Arguments mkSearched {A}.
Arguments searched_value {A}.
Arguments searched_search {A}.
Arguments searched_table {A}.
Arguments searched_results {A}.
Arguments searched_analysis {A}.
Arguments searched_stats {A}.

Definition think (fuel : nat) (clock : list Z) (color : Z) (g : GameState)
           (passflag : Z) (table : TTable) (s : UCTSearch GameState)
  : option (Searched Z) :=
  let '(s, _) := think_begin color g s in
  let time_for_move := max_time_for_move color (m_rootstate s) in
  match think_loop fuel time_for_move clock 0 table s with
  | Some (s, table, results, analysis) =>
      match think_end fuel color passflag s with
      | Some (bestmove, s, stats) =>
          Some (mkSearched bestmove s table results analysis stats)
      | None => None
      end
  | None => None
  end.


(** How many of the results are valid. *)
Definition count_valid (results : list SearchResult) : Z :=
  Z.of_nat (length (List.filter valid results)).



(** ** Properties *)

(** *** Machine integers *)

Lemma to_int_range (x : Z) : - 2 ^ 31 <= to_int x <= INT_MAX.
Proof.
  unfold to_int, INT_MAX.
  pose proof (Z.mod_pos_bound (x + 2 ^ 31) (2 ^ 32) ltac:(lia)). lia.
Qed.

Lemma to_int_INT_MAX : to_int INT_MAX = INT_MAX.
Proof. reflexivity. Qed.

(** The literals are the binary32 values nearest to their decimals. *)
Lemma literals_nearest :
  F32.one = F32.of_Z 1
  /\ F32.lit_0_01 = F32.decimal 1 100
  /\ F32.lit_0_6 = F32.decimal 6 10
  /\ F32.lit_0_5 = F32.decimal 1 2
  /\ F32.lit_0_25 = F32.decimal 1 4
  /\ F32.lit_0_03 = F32.decimal 3 100.
Proof. vm_compute. repeat split; reflexivity. Qed.

(** *** The limit setters *)

(** C9: [set_playout_limit n] sets the playout cap to the largest [int]
    when [n] is 0 and to [n] otherwise, and leaves the visit cap alone;
    [set_visit_limit n] does the same for the visit cap. *)
Theorem set_limit_zero_is_unlimited (n : Z) (s : UCTSearch GameState) :
  m_maxplayouts (set_playout_limit n s) = (if n =? 0 then INT_MAX else n)
  /\ m_maxvisits (set_playout_limit n s) = m_maxvisits s
  /\ m_maxvisits (set_visit_limit n s) = (if n =? 0 then INT_MAX else n)
  /\ m_maxplayouts (set_visit_limit n s) = m_maxplayouts s.
Proof.
  unfold set_playout_limit, set_visit_limit.
  destruct (n =? 0); simpl; auto.
Qed.

(** The constructor hands the configured caps to the setters. *)
Lemma UCTSearch_new_limits rootstate nodes playouts run mp mv :
  let s := UCTSearch_new rootstate nodes playouts run mp mv in
  m_maxplayouts s = (if cfg_max_playouts cfg =? 0 then INT_MAX else cfg_max_playouts cfg)
  /\ m_maxvisits s = (if cfg_max_visits cfg =? 0 then INT_MAX else cfg_max_visits cfg).
Proof.
  unfold UCTSearch_new, set_playout_limit, set_visit_limit.
  destruct (cfg_max_playouts cfg =? 0), (cfg_max_visits cfg =? 0); simpl; auto.
Qed.

(** *** [set_gamestate] *)

(** C10: [set_gamestate] leaves the playout counter at 0 whether or not
    the tree is rerooted, and so do the openings of [think] and [ponder],
    which call it first and do not touch the counter before the first
    simulation. *)
Theorem set_gamestate_resets_playouts (color : Z) (g : GameState)
        (s : UCTSearch GameState) :
  m_playouts (set_gamestate g s) = 0
  /\ m_playouts (fst (think_begin color g s)) = 0
  /\ m_playouts (ponder_begin g s) = 0.
Proof.
  assert (Hset : forall s0, m_playouts (set_gamestate g s0) = 0).
  { intros s0. unfold set_gamestate.
    destruct (negb _ || negb _); [destruct (find_new_root _ _ _)|]; reflexivity. }
  repeat split.
  - apply Hset.
  - unfold think_begin.
    destruct (negb (has_children _)).
    + destruct (create_children _ _ _) as [[[? ?] ?] ?]. simpl. apply Hset.
    + simpl. apply Hset.
  - unfold ponder_begin. simpl. apply Hset.
Qed.

(** *** [should_resign] *)

(** The gate on visits, as the code has it: the configured cap is read as
    it stands. *)
Lemma should_resign_low_visits s passflag bestscore :
  get_visits (m_root s) < Z.min 500 (cfg_max_playouts cfg) ->
  should_resign s passflag bestscore = false.
Proof.
  intros Hlow. unfold should_resign.
  destruct (truthy _); [reflexivity|].
  destruct (cfg_resignpct cfg =? 0); [reflexivity|].
  apply Z.ltb_lt in Hlow. rewrite Hlow. reflexivity.
Qed.

(** C8: without NORESIGN, with the default resign percentage, 600 root
    visits, a 19x19 board and no handicap, an evaluation of 0.02 resigns
    at move 200 and does not at move 80. *)
Theorem should_resign_scenario (s : UCTSearch GameState) (passflag : Z) :
  Z.land passflag NORESIGN = 0 ->
  cfg_resignpct cfg = -1 ->
  get_visits (m_root s) = 600 ->
  get_boardsize (m_rootstate s) = 19 ->
  get_handicap (m_rootstate s) = 0 ->
  (get_movenum (m_rootstate s) = 200 ->
   should_resign s passflag (F32.decimal 2 100) = true)
  /\ (get_movenum (m_rootstate s) = 80 ->
      should_resign s passflag (F32.decimal 2 100) = false).
Proof.
  intros Hflag Hpct Hvisits Hsize Hhandi.
  assert (Hgate : (600 <? Z.min 500 (cfg_max_playouts cfg)) = false)
    by (apply Z.ltb_ge; lia).
  split; intros Hmove; unfold should_resign;
    rewrite Hflag, Hpct, Hvisits, Hgate, Hsize, Hmove, Hhandi;
    vm_compute; reflexivity.
Qed.

(** *** [get_best_move] *)

(** C7: when the first child of the reordered root has no visit,
    [get_best_move] returns its move at once. *)
Theorem get_best_move_unvisited (passflag : Z) (s : UCTSearch GameState)
        (first : UCTNode) :
  get_first_child (m_root (order_root s)) = Some first ->
  first_visit first = true ->
  get_best_move passflag s = Some (get_move first, order_root s).
Proof.
  intros Hfirst Hvisit. unfold get_best_move.
  cbv zeta. rewrite Hfirst, Hvisit. reflexivity.
Qed.

(** C6: without NOPASS and with the pass heuristics on, when the visited
    first child is not a pass and the opponent has just passed,
    [get_best_move] passes out unless passing loses; when passing loses the
    first child's move stays the best move, which then goes through the
    resignation test with the child's evaluation. *)
Theorem get_best_move_pass_out (passflag : Z) (s : UCTSearch GameState)
        (first : UCTNode) :
  Z.land passflag NOPASS = 0 ->
  cfg_dumbpass cfg = false ->
  get_first_child (m_root (order_root s)) = Some first ->
  get_move first <> PASS ->
  first_visit first = false ->
  get_last_move (m_rootstate s) = PASS ->
  let color := get_to_move (m_rootstate s) in
  let score := final_score (m_rootstate s) in
  get_best_move passflag s =
  Some (if passing_loses score color then
          if should_resign (order_root s) passflag (get_eval color first)
          then RESIGN else get_move first
        else PASS,
        order_root s).
Proof.
  intros Hflag Hdumb Hfirst Hmove Hvisit Hlast color score.
  unfold get_best_move. cbv zeta. rewrite Hfirst, Hvisit, Hflag, Hdumb.
  apply Z.eqb_neq in Hmove. rewrite Hmove.
  change (m_rootstate (order_root s)) with (m_rootstate s).
  rewrite Hlast, Z.eqb_refl. simpl.
  fold color score.
  destruct (passing_loses score color).
  - rewrite Hmove. reflexivity.
  - rewrite Z.eqb_refl. reflexivity.
Qed.

(** *** Counting calls *)

Lemma calls_on_app d c l1 l2 :
  calls_on d c (l1 ++ l2) = (calls_on d c l1 + calls_on d c l2)%nat.
Proof. unfold calls_on. rewrite List.filter_app, length_app. reflexivity. Qed.

Lemma calls_of_app c l1 l2 :
  calls_of c (l1 ++ l2) = (calls_of c l1 + calls_of c l2)%nat.
Proof. unfold calls_of. rewrite List.filter_app, length_app. reflexivity. Qed.

Lemma calls_on_deeper_O c l : calls_on 0 c (deeper l) = 0%nat.
Proof.
  unfold calls_on, deeper. induction l as [|e l IH]; simpl; [reflexivity|].
  exact IH.
Qed.

Lemma calls_on_deeper_S d c l : calls_on (S d) c (deeper l) = calls_on d c l.
Proof.
  unfold calls_on, deeper. induction l as [|[k c'] l IH]; simpl; [reflexivity|].
  destruct (Nat.eqb k d && NodeCall_eqb c' c); simpl; rewrite IH; reflexivity.
Qed.

Lemma calls_of_deeper c l : calls_of c (deeper l) = calls_of c l.
Proof.
  unfold calls_of, deeper. induction l as [|[k c'] l IH]; simpl; [reflexivity|].
  destruct (NodeCall_eqb c' c); simpl; rewrite IH; reflexivity.
Qed.

(** *** The phases of a simulation *)

(** The calls a leaf expansion can make. *)
Lemma expand_leaf_calls nodes st n r r' n' nodes' ev :
  expand_leaf nodes st n r = (r', n', nodes', ev) ->
  ev = [] \/ ev = [(0%nat, CallCreateChildren)] \/ ev = [(0%nat, CallEvalState)].
Proof.
  unfold expand_leaf. intros He.
  destruct (negb (has_children n)); [|inversion He; auto].
  destruct (get_passes st >=? 2); [inversion He; auto|].
  destruct (nodes <? MAX_TREE_SIZE); [|inversion He; auto].
  destruct (create_children nodes st n) as [[[? ?] ?] ?]. inversion He; auto.
Qed.

(** Backup calls [update] exactly when the result is valid, and then undoes
    the virtual loss. *)
Lemma backup_eq table hash komi r n :
  backup table hash komi r n =
  (virtual_loss_undo (if valid r then update (eval r) n else n),
   tt_update table hash komi
             (virtual_loss_undo (if valid r then update (eval r) n else n)),
   (if valid r then [(0%nat, CallUpdate)] else []) ++ [(0%nat, CallVirtualLossUndo)]).
Proof. unfold backup. destruct (valid r); reflexivity. Qed.

Lemma select_child_lookup color n i next :
  select_child color n = Some (i, next) -> m_children n !! i = Some next.
Proof.
  unfold select_child. destruct (uct_select_child color n) as [j|]; [|discriminate].
  destruct (m_children n !! j) eqn:E; [|discriminate].
  intros [= <- <-]. exact E.
Qed.

Lemma has_children_virtual_loss n : has_children (virtual_loss n) = has_children n.
Proof. reflexivity. Qed.

Lemma play_simulation_S fuel :
  play_simulation (S fuel) = simulation (play_simulation fuel).
Proof. reflexivity. Qed.

(** *** Leaves that are not expanded *)

(** C5: at a node without children (as tested on line 69, after the
    transposition sync), in a position with two or more passes in a row,
    the result is [from_score (final_score state)], which is valid; the
    only calls on the node are the virtual loss, the update and the undo,
    so neither [create_children] nor [eval_state] runs, and the node count
    and the state are left as they were. *)
Theorem play_simulation_double_pass (fuel : nat) (table : TTable) (nodes : Z)
        (st : GameState) (node : UCTNode) :
  has_children (tt_sync table (get_hash st) (get_komi st) node) = false ->
  2 <= get_passes st ->
  exists o,
    play_simulation (S fuel) table nodes st node = Some o
    /\ out_result o = from_score (final_score st)
    /\ valid (out_result o) = true
    /\ out_calls o =
       [(0%nat, CallVirtualLoss); (0%nat, CallUpdate); (0%nat, CallVirtualLossUndo)]
    /\ calls_of CallCreateChildren (out_calls o) = 0%nat
    /\ calls_of CallEvalState (out_calls o) = 0%nat
    /\ out_nodes o = nodes
    /\ out_state o = st.
Proof.
  intros Hleaf Hpass.
  rewrite play_simulation_S. unfold simulation, expand_leaf.
  rewrite has_children_virtual_loss, Hleaf. simpl negb. cbv iota.
  assert (Hge : (get_passes st >=? 2) = true) by (apply Z.geb_le; lia).
  rewrite Hge. unfold descend.
  rewrite has_children_virtual_loss, Hleaf. simpl andb. cbv iota.
  rewrite backup_eq. simpl.
  eexists. split; [reflexivity|]. simpl. repeat split; reflexivity.
Qed.

(** C4: at a node without children (as tested on line 69), with fewer than
    two passes in a row and the tree at its size cap, no expansion is
    tried: the result is [from_eval] of the node's [eval_state], it is
    valid, and it is backed up into the node. *)
Theorem play_simulation_tree_full (fuel : nat) (table : TTable) (nodes : Z)
        (st : GameState) (node : UCTNode) :
  has_children (tt_sync table (get_hash st) (get_komi st) node) = false ->
  get_passes st < 2 ->
  MAX_TREE_SIZE <= nodes ->
  let node1 := virtual_loss (tt_sync table (get_hash st) (get_komi st) node) in
  exists o,
    play_simulation (S fuel) table nodes st node = Some o
    /\ out_result o = from_eval (eval_state st node1)
    /\ valid (out_result o) = true
    /\ out_calls o =
       [(0%nat, CallVirtualLoss); (0%nat, CallEvalState);
        (0%nat, CallUpdate); (0%nat, CallVirtualLossUndo)]
    /\ calls_of CallCreateChildren (out_calls o) = 0%nat
    /\ out_node o = virtual_loss_undo (update (eval_state st node1) node1)
    /\ out_nodes o = nodes.
Proof.
  intros Hleaf Hpass Hfull node1.
  rewrite play_simulation_S. unfold simulation, expand_leaf.
  fold node1.
  assert (Hleaf1 : has_children node1 = false) by exact Hleaf.
  rewrite Hleaf1. simpl negb. cbv iota.
  assert (Hlt : (get_passes st >=? 2) = false).
  { destruct (Z.geb_spec (get_passes st) 2); [lia|reflexivity]. }
  assert (Hcap : (nodes <? MAX_TREE_SIZE) = false) by (apply Z.ltb_ge; lia).
  rewrite Hlt, Hcap. unfold descend.
  rewrite Hleaf1. simpl andb. cbv iota.
  rewrite backup_eq. simpl.
  eexists. split; [reflexivity|]. simpl. repeat split; reflexivity.
Qed.

(** *** Virtual loss *)

Lemma descend_virtual_loss (self : Self) table nodes st color n r d :
  (forall table nodes st node o,
      self table nodes st node = Some o -> virtual_loss_discipline node o) ->
  descend self table nodes st color n r = Some d ->
  calls_on 0 CallVirtualLoss (out_calls d) = 0%nat
  /\ calls_on 0 CallVirtualLossUndo (out_calls d) = 0%nat
  /\ (forall k, calls_on k CallVirtualLoss (out_calls d)
                = calls_on k CallVirtualLossUndo (out_calls d))
  /\ m_virtual_loss (out_node d) = m_virtual_loss n.
Proof.
  intros IH. unfold descend, recurse.
  assert (Hrec : forall st' i next,
    match self table nodes st' next with
    | Some o =>
        Some (mkOutcome (out_result o) (set_child i (out_node o) n)
                        (out_state o) (out_nodes o) (out_table o)
                        (deeper (out_calls o)))
    | None => None
    end = Some d ->
    calls_on 0 CallVirtualLoss (out_calls d) = 0%nat
    /\ calls_on 0 CallVirtualLossUndo (out_calls d) = 0%nat
    /\ (forall k, calls_on k CallVirtualLoss (out_calls d)
                  = calls_on k CallVirtualLossUndo (out_calls d))
    /\ m_virtual_loss (out_node d) = m_virtual_loss n).
  { intros st' i next. destruct (self table nodes st' next) as [o|] eqn:Hs; [|discriminate].
    intros [= <-]. simpl. apply IH in Hs as (_ & _ & Hbal & _).
    rewrite !calls_on_deeper_O. repeat split.
    intros [|k]; [rewrite !calls_on_deeper_O; reflexivity|].
    rewrite !calls_on_deeper_S. apply Hbal. }
  destruct (has_children n && negb (valid r)).
  - destruct (select_child color n) as [[i next]|].
    + destruct (negb (get_move next =? PASS)).
      * destruct (negb (superko (play_move (get_move next) st))).
        -- apply Hrec.
        -- intros [= <-]. simpl. repeat split; intros [|[|k]]; reflexivity.
      * apply Hrec.
    + intros [= <-]. simpl. repeat split; intros k; reflexivity.
  - intros [= <-]. simpl. repeat split; intros k; reflexivity.
Qed.

Lemma expand_leaf_virtual_loss nodes st n r r' n' nodes' ev :
  create_keeps_virtual_loss ->
  expand_leaf nodes st n r = (r', n', nodes', ev) ->
  m_virtual_loss n' = m_virtual_loss n.
Proof.
  intros Hcreate. unfold expand_leaf.
  destruct (negb (has_children n)); [|intros [= _ <- _ _]; reflexivity].
  destruct (get_passes st >=? 2); [intros [= _ <- _ _]; reflexivity|].
  destruct (nodes <? MAX_TREE_SIZE); [|intros [= _ <- _ _]; reflexivity].
  specialize (Hcreate nodes st n).
  destruct (create_children nodes st n) as [[[? ?] ?] ?].
  intros [= _ <- _ _]. exact Hcreate.
Qed.

Lemma simulation_virtual_loss (self : Self) :
  sync_keeps_virtual_loss ->
  create_keeps_virtual_loss ->
  (forall table nodes st node o,
      self table nodes st node = Some o -> virtual_loss_discipline node o) ->
  forall table nodes st node o,
    simulation self table nodes st node = Some o ->
    virtual_loss_discipline node o.
Proof.
  intros Hsync Hcreate IH table nodes st node o. unfold simulation.
  destruct (expand_leaf _ _ _ _) as [[[r n2] nodes2] ev] eqn:He.
  destruct (descend _ _ _ _ _ _ _) as [d|] eqn:Hd; [|discriminate].
  rewrite backup_eq. intros [= <-].
  apply (descend_virtual_loss _ _ _ _ _ _ _ _ IH) in Hd as (Hd1 & Hd2 & Hd3 & Hd4).
  pose proof (expand_leaf_virtual_loss _ _ _ _ _ _ _ _ Hcreate He) as Hn2.
  apply expand_leaf_calls in He.
  assert (Hev : forall k c, c = CallVirtualLoss \/ c = CallVirtualLossUndo ->
                            calls_on k c ev = 0%nat).
  { intros k c Hc. destruct He as [-> | [-> | ->]], Hc as [-> | ->];
      unfold calls_on; simpl; try reflexivity;
      rewrite Bool.andb_false_r; reflexivity. }
  unfold virtual_loss_discipline. simpl out_calls. simpl out_node.
  change ((0%nat, CallVirtualLoss) :: ev ++ out_calls d ++ ?l)
    with ([(0%nat, CallVirtualLoss)] ++ ev ++ out_calls d ++ l).
  repeat split.
  - rewrite !calls_on_app, Hev, Hd1 by auto. destruct (valid (out_result d)); reflexivity.
  - rewrite !calls_on_app, Hev, Hd2 by auto. destruct (valid (out_result d)); reflexivity.
  - intros k. rewrite !calls_on_app, !Hev, Hd3 by auto.
    destruct k, (valid (out_result d)); unfold calls_on; simpl; lia.
  - assert (Hvl : forall e, m_virtual_loss
              (virtual_loss_undo (if valid (out_result d)
                                  then update e (out_node d) else out_node d))
              = m_virtual_loss (out_node d) - VIRTUAL_LOSS_COUNT).
    { intros e. destruct (valid (out_result d)); reflexivity. }
    rewrite Hvl, Hd4, Hn2. simpl. rewrite Hsync. lia.
Qed.

Lemma play_simulation_virtual_loss :
  sync_keeps_virtual_loss ->
  create_keeps_virtual_loss ->
  forall fuel table nodes st node o,
    play_simulation fuel table nodes st node = Some o ->
    virtual_loss_discipline node o.
Proof.
  intros Hsync Hcreate fuel. induction fuel as [|fuel IH]; [discriminate|].
  rewrite play_simulation_S. apply simulation_virtual_loss; assumption.
Qed.

(** *** Termination *)

Lemma height_child n i c :
  m_children n !! i = Some c -> (height c < height n)%nat.
Proof.
  destruct n as [mv sc ie vs be vl ok cs]. simpl.
  revert i. induction cs as [|c' cs IH]; intros i Hi; [discriminate|].
  destruct i as [|i]; simpl in *.
  - injection Hi as ->. lia.
  - specialize (IH i Hi). lia.
Qed.

Lemma expand_leaf_children nodes st n r n' nodes' ev :
  failed_create_adds_nothing ->
  expand_leaf nodes st n SearchResult_default = (r, n', nodes', ev) ->
  has_children n' && negb (valid r) = true ->
  m_children n' = m_children n.
Proof.
  intros Hfail. unfold expand_leaf.
  destruct (has_children n) eqn:Hn; simpl negb; cbv iota;
    [intros [= _ <- _ _]; reflexivity|].
  destruct (get_passes st >=? 2).
  { intros [= <- <- _ _]. simpl. rewrite Bool.andb_false_r. discriminate. }
  destruct (nodes <? MAX_TREE_SIZE).
  - specialize (Hfail nodes st n).
    destruct (create_children nodes st n) as [[[success e] n1] nodes1].
    simpl in Hfail. intros [= <- <- _ _].
    destruct success; simpl; [rewrite Bool.andb_false_r; discriminate|].
    intros _. apply Hfail. reflexivity.
  - intros [= <- <- _ _]. simpl. rewrite Bool.andb_false_r. discriminate.
Qed.

Lemma play_simulation_terminates :
  sync_keeps_children ->
  failed_create_adds_nothing ->
  forall fuel node,
    (height node <= fuel)%nat ->
    forall table nodes st,
    exists o, play_simulation fuel table nodes st node = Some o.
Proof.
  intros Hsync Hfail fuel. induction fuel as [|fuel IH]; intros node Hh table nodes st.
  { destruct node; simpl in Hh; lia. }
  rewrite play_simulation_S. unfold simulation.
  destruct (expand_leaf _ _ _ _) as [[[r n2] nodes2] ev] eqn:He.
  assert (Hd : exists d, descend (play_simulation fuel) table nodes2 st
                                 (get_to_move st) n2 r = Some d).
  { unfold descend, recurse.
    destruct (has_children n2 && negb (valid r)) eqn:Hcond; [|eauto].
    destruct (select_child (get_to_move st) n2) as [[i next]|] eqn:Hsel; [|eauto].
    apply select_child_lookup in Hsel.
    rewrite (expand_leaf_children _ _ _ _ _ _ _ Hfail He Hcond) in Hsel.
    simpl in Hsel. rewrite Hsync in Hsel.
    apply height_child in Hsel.
    assert (Hnext : (height next <= fuel)%nat) by lia.
    destruct (negb (get_move next =? PASS)).
    - destruct (negb (superko (play_move (get_move next) st))); [|eauto].
      destruct (IH next Hnext table nodes2 (play_move (get_move next) st)) as [o ->].
      eauto.
    - destruct (IH next Hnext table nodes2 (play_pass st)) as [o ->]. eauto. }
  destruct Hd as [d ->]. rewrite backup_eq. eauto.
Qed.

(** C1: under the two frame conditions (the transposition sync and the
    expansion do not touch the virtual-loss counter), every call of
    [play_simulation] that returns has called [virtual_loss] once and
    [virtual_loss_undo] once on its node, whatever path was taken, and has
    left the node's counter at its value before the call (on the nodes
    below, undos and virtual losses are as many); and in a tree that
    only this thread changes, the call does return once the fuel covers the
    height of the node. *)
Theorem play_simulation_virtual_loss_balanced
        (fuel : nat) (table : TTable) (nodes : Z) (st : GameState) (node : UCTNode) :
  sync_keeps_virtual_loss ->
  create_keeps_virtual_loss ->
  (forall o, play_simulation fuel table nodes st node = Some o ->
             calls_on 0 CallVirtualLoss (out_calls o) = 1%nat
             /\ calls_on 0 CallVirtualLossUndo (out_calls o) = 1%nat
             /\ (forall d, calls_on d CallVirtualLoss (out_calls o)
                           = calls_on d CallVirtualLossUndo (out_calls o))
             /\ m_virtual_loss (out_node o) = m_virtual_loss node)
  /\ (sync_keeps_children -> failed_create_adds_nothing ->
      (height node <= fuel)%nat ->
      exists o, play_simulation fuel table nodes st node = Some o).
Proof.
  intros Hsync Hcreate. split.
  - intros o Ho.
    exact (play_simulation_virtual_loss Hsync Hcreate _ _ _ _ _ _ Ho).
  - intros Hkeep Hfail Hh. apply play_simulation_terminates; assumption.
Qed.

(** *** Invalid results *)

Lemma descend_invalid (self : Self) table nodes st color n r d :
  (forall table nodes st node o,
      self table nodes st node = Some o -> invalid_discipline o) ->
  descend self table nodes st color n r = Some d ->
  invalid_discipline d
  /\ (calls_of CallInvalidate (out_calls d) = 0%nat \/ valid r = false).
Proof.
  intros IH. unfold descend, recurse, invalid_discipline.
  assert (Hrec : forall st' i next,
    match self table nodes st' next with
    | Some o =>
        Some (mkOutcome (out_result o) (set_child i (out_node o) n)
                        (out_state o) (out_nodes o) (out_table o)
                        (deeper (out_calls o)))
    | None => None
    end = Some d ->
    valid r = false ->
    (((0 < calls_of CallInvalidate (out_calls d))%nat -> valid (out_result d) = false)
     /\ (valid (out_result d) = false -> calls_of CallUpdate (out_calls d) = 0%nat))
    /\ (calls_of CallInvalidate (out_calls d) = 0%nat \/ valid r = false)).
  { intros st' i next. destruct (self table nodes st' next) as [o|] eqn:Hs; [|discriminate].
    intros [= <-] Hr. simpl. rewrite !calls_of_deeper.
    apply IH in Hs. split; [exact Hs|right; exact Hr]. }
  destruct (has_children n && negb (valid r)) eqn:Hcond.
  - assert (Hr : valid r = false).
    { apply andb_prop in Hcond as [_ Hv]. destruct (valid r); [discriminate|reflexivity]. }
    destruct (select_child color n) as [[i next]|].
    + destruct (negb (get_move next =? PASS)).
      * destruct (negb (superko (play_move (get_move next) st))).
        -- intros Hs. apply (Hrec _ _ _ Hs Hr).
        -- intros [= <-]. simpl. auto.
      * intros Hs. apply (Hrec _ _ _ Hs Hr).
    + intros [= <-]. simpl. unfold calls_of. simpl. repeat split; auto; lia.
  - intros [= <-]. unfold calls_of. simpl. repeat split; auto; lia.
Qed.

Lemma simulation_invalid (self : Self) :
  (forall table nodes st node o,
      self table nodes st node = Some o -> invalid_discipline o) ->
  forall table nodes st node o,
    simulation self table nodes st node = Some o -> invalid_discipline o.
Proof.
  intros IH table nodes st node o. unfold simulation.
  destruct (expand_leaf _ _ _ _) as [[[r n2] nodes2] ev] eqn:He.
  destruct (descend _ _ _ _ _ _ _) as [d|] eqn:Hd; [|discriminate].
  rewrite backup_eq. intros [= <-].
  apply (descend_invalid _ _ _ _ _ _ _ _ IH) in Hd as [[HdA HdB] _].
  apply expand_leaf_calls in He.
  assert (Hev : forall c, c = CallInvalidate \/ c = CallUpdate -> calls_of c ev = 0%nat).
  { intros c Hc. destruct He as [-> | [-> | ->]], Hc as [-> | ->]; reflexivity. }
  unfold invalid_discipline. simpl out_calls. simpl out_result.
  change ((0%nat, CallVirtualLoss) :: ev ++ out_calls d ++ ?l)
    with ([(0%nat, CallVirtualLoss)] ++ ev ++ out_calls d ++ l).
  rewrite !calls_of_app, !Hev by auto. split.
  - intros Hinv. apply HdA.
    destruct (valid (out_result d)); unfold calls_of in *; simpl in *; lia.
  - intros Hr. rewrite (HdB Hr), Hr. reflexivity.
Qed.

Lemma play_simulation_invalid fuel table nodes st node o :
  play_simulation fuel table nodes st node = Some o -> invalid_discipline o.
Proof.
  revert table nodes st node o. induction fuel as [|fuel IH]; [discriminate|].
  rewrite play_simulation_S. apply simulation_invalid. exact IH.
Qed.

(** The playout counter after one counted simulation. *)
Lemma simulate_once_playouts fuel table s r s' table' evs :
  simulate_once fuel table s = Some (r, s', table', evs) ->
  m_playouts s' = (if valid r then m_playouts s + 1 else m_playouts s)
  /\ exists o, play_simulation fuel table (m_nodes s) (m_rootstate s) (m_root s) = Some o
               /\ out_result o = r /\ out_calls o = evs.
Proof.
  unfold simulate_once.
  destruct (play_simulation _ _ _ _ _) as [o|]; [|discriminate].
  intros [= <- <- _ <-]. split; [|eauto].
  destruct (valid (out_result o)); reflexivity.
Qed.

(** C3: when line 85 is reached with a child selected whose move is not a
    pass and whose move runs into superko, the simulation returns (even
    with fuel for this call only, so without a recursive call) an invalid
    result, the child is invalidated, and the calls made are those of the
    expansion phase, the virtual loss, the invalidation and the undo: no
    update.  Any simulation in which a child was invalidated returns an
    invalid result and updates no node, and the loop body that ran it
    leaves the playout counter as it was. *)
Theorem play_simulation_superko
        (fuel : nat) (table : TTable) (nodes : Z) (st : GameState) (node : UCTNode) :
  (forall r node1 nodes1 ev i next,
      expand_leaf nodes st
                  (virtual_loss (tt_sync table (get_hash st) (get_komi st) node))
                  SearchResult_default = (r, node1, nodes1, ev) ->
      has_children node1 = true ->
      valid r = false ->
      select_child (get_to_move st) node1 = Some (i, next) ->
      get_move next <> PASS ->
      superko (play_move (get_move next) st) = true ->
      exists o,
        play_simulation 1 table nodes st node = Some o
        /\ play_simulation (S fuel) table nodes st node = Some o
        /\ valid (out_result o) = false
        /\ m_children (out_node o) !! i = Some (invalidate next)
        /\ out_calls o =
           (0%nat, CallVirtualLoss) :: ev
             ++ [(1%nat, CallInvalidate); (0%nat, CallVirtualLossUndo)]
        /\ calls_of CallUpdate (out_calls o) = 0%nat)
  /\ (forall o,
        play_simulation fuel table nodes st node = Some o ->
        (0 < calls_of CallInvalidate (out_calls o))%nat ->
        valid (out_result o) = false
        /\ calls_of CallUpdate (out_calls o) = 0%nat)
  /\ (forall s r s' table' evs,
        simulate_once fuel table s = Some (r, s', table', evs) ->
        (0 < calls_of CallInvalidate evs)%nat ->
        valid r = false /\ m_playouts s' = m_playouts s).
Proof.
  split; [|split].
  - intros r node1 nodes1 ev i next He Hc Hr Hsel Hmv Hko.
    assert (Hbody : forall self, exists o,
      simulation self table nodes st node = Some o
      /\ valid (out_result o) = false
      /\ m_children (out_node o) !! i = Some (invalidate next)
      /\ out_calls o =
         (0%nat, CallVirtualLoss) :: ev
           ++ [(1%nat, CallInvalidate); (0%nat, CallVirtualLossUndo)]
      /\ calls_of CallUpdate (out_calls o) = 0%nat
      /\ o = mkOutcome r
               (virtual_loss_undo (set_child i (invalidate next) node1))
               (play_move (get_move next) st) nodes1
               (tt_update table (get_hash st) (get_komi st)
                  (virtual_loss_undo (set_child i (invalidate next) node1)))
               ((0%nat, CallVirtualLoss) :: ev
                  ++ [(1%nat, CallInvalidate); (0%nat, CallVirtualLossUndo)])).
    { intros self. unfold simulation. rewrite He. unfold descend.
      rewrite Hc, Hr, Hsel. simpl andb. cbv iota beta zeta.
      apply Z.eqb_neq in Hmv. rewrite Hmv, Hko. simpl negb. cbv iota.
      rewrite backup_eq. simpl out_result. rewrite Hr.
      eexists. split; [reflexivity|]. simpl.
      split; [exact Hr|]. split.
      - apply list_lookup_insert_eq.
        apply select_child_lookup in Hsel. eapply lookup_lt_Some. exact Hsel.
      - split; [reflexivity|]. split; [|reflexivity].
        change ((0%nat, CallVirtualLoss) :: ev ++ ?l)
          with ([(0%nat, CallVirtualLoss)] ++ ev ++ l).
        rewrite !calls_of_app.
        apply expand_leaf_calls in He. destruct He as [-> | [-> | ->]]; reflexivity. }
    destruct (Hbody (play_simulation 0)) as (o & H1 & Hv & Hch & Hcalls & Hup & Ho).
    destruct (Hbody (play_simulation fuel)) as (o' & H2 & _ & _ & _ & _ & Ho').
    exists o. rewrite !play_simulation_S, H1, H2.
    repeat split; auto. congruence.
  - intros o Ho Hinv.
    destruct (play_simulation_invalid _ _ _ _ _ _ Ho) as [HA HB].
    split; [apply HA; exact Hinv|]. apply HB, HA, Hinv.
  - intros s r s' table' evs Hs Hinv.
    apply simulate_once_playouts in Hs as [Hp (o & Ho & <- & <-)].
    destruct (play_simulation_invalid _ _ _ _ _ _ Ho) as [HA _].
    specialize (HA Hinv). rewrite HA in Hp. auto.
Qed.

(** *** Order on [float] *)

Lemma SFltb_leb_trans (t x y : float) :
  SFltb t x = true -> SFleb x y = true -> SFltb t y = true.
Proof.
  unfold SFltb, SFleb.
  destruct t as [st|st| |st mt et], x as [sx|sx| |sx mx ex], y as [sy|sy| |sy my ey];
    simpl; try discriminate; try reflexivity;
    repeat match goal with b : bool |- _ => destruct b end;
    simpl; try discriminate; try reflexivity.
  all: destruct (Z.compare_spec et ex), (Z.compare_spec ex ey), (Z.compare_spec et ey);
    try discriminate; try reflexivity; try lia; subst;
    destruct (Pos.compare_cont Eq mt mx) eqn:E1, (Pos.compare_cont Eq mx my) eqn:E2,
             (Pos.compare_cont Eq mt my) eqn:E3; simpl;
    try discriminate; try reflexivity;
    change (Pos.compare_cont Eq ?a ?b) with (Pos.compare a b) in *;
    rewrite ?Pos.compare_eq_iff, ?Pos.compare_lt_iff, ?Pos.compare_gt_iff in *; lia.
Qed.

Lemma gtb_false_le (t x y : float) :
  SFleb x y = true -> F32.gtb y t = false -> F32.gtb x t = false.
Proof.
  unfold F32.gtb. intros Hle Hy.
  destruct (SFltb t x) eqn:Hx; [|reflexivity].
  rewrite (SFltb_leb_trans _ _ _ Hx Hle) in Hy. discriminate.
Qed.

Lemma SFeqb_refl (x : float) : x <> S754_nan -> SFeqb x x = true.
Proof.
  unfold SFeqb. destruct x as [sx|sx| |sx mx ex]; simpl; intros Hx;
    try reflexivity; try congruence; destruct sx; try reflexivity;
    rewrite Z.compare_refl;
    change (Pos.compare_cont Eq mx mx) with (Pos.compare mx mx);
    rewrite Pos.compare_refl; reflexivity.
Qed.

(** *** More on [should_resign] *)

(** X1: a resignation means that every gate was passed: NORESIGN is not
    set, the resign percentage is not 0, the root has at least
    [min(500, cfg_max_playouts)] visits, the move number is beyond a quarter
    of the board, and the score is not above the threshold. *)
Theorem should_resign_gates (s : UCTSearch GameState) (passflag : Z) (bestscore : float) :
  should_resign s passflag bestscore = true ->
  Z.land passflag NORESIGN = 0
  /\ cfg_resignpct cfg <> 0
  /\ Z.min 500 (cfg_max_playouts cfg) <= get_visits (m_root s)
  /\ to_size_t (get_boardsize (m_rootstate s) * get_boardsize (m_rootstate s)) / 4
     < get_movenum (m_rootstate s)
  /\ F32.gtb bestscore
       (F32.mul F32.lit_0_01
                (F32.of_Z (if cfg_resignpct cfg <? 0 then 10 else cfg_resignpct cfg)))
     = false.
Proof.
  unfold should_resign, truthy.
  destruct (Z.eqb_spec (Z.land passflag NORESIGN) 0) as [Hflag|]; [|discriminate].
  destruct (Z.eqb_spec (cfg_resignpct cfg) 0) as [|Hpct]; [discriminate|].
  simpl negb. cbv iota.
  destruct (Z.ltb_spec (get_visits (m_root s)) (Z.min 500 (cfg_max_playouts cfg)));
    [discriminate|].
  cbv zeta.
  destruct (Z.leb_spec (get_movenum (m_rootstate s))
              (to_size_t (get_boardsize (m_rootstate s) * get_boardsize (m_rootstate s)) / 4));
    [discriminate|].
  destruct (F32.gtb bestscore _) eqn:Hscore; [discriminate|].
  intros _. repeat split; assumption.
Qed.

(** X2: resignation is monotone in the score: if a score resigns, every
    score that is not greater resigns too. *)
Theorem should_resign_monotone (s : UCTSearch GameState) (passflag : Z)
        (score lower : float) :
  SFleb lower score = true ->
  should_resign s passflag score = true ->
  should_resign s passflag lower = true.
Proof.
  intros Hle. unfold should_resign.
  destruct (truthy _); [discriminate|].
  destruct (cfg_resignpct cfg =? 0); [discriminate|].
  destruct (_ <? Z.min _ _); [discriminate|]. cbv zeta.
  destruct (_ <=? _); [discriminate|].
  destruct (F32.gtb score _) eqn:Hs; [discriminate|].
  pose proof (gtb_false_le _ _ _ Hle Hs) as Hl.
  destruct (_ && _ && _).
  - clear Hs.
    destruct (F32.gtb score _) eqn:Hs2; [discriminate|].
    pose proof (gtb_false_le _ _ _ Hle Hs2) as Hl2.
    intros _. rewrite Hl, Hl2. reflexivity.
  - intros _. rewrite Hl. reflexivity.
Qed.

(** *** More on [get_best_move] *)

Lemma get_best_move_unfold (passflag : Z) (s : UCTSearch GameState) :
  get_best_move passflag s =
  match get_first_child (m_root (order_root s)) with
  | None => None
  | Some first =>
      if first_visit first then Some (get_move first, order_root s)
      else Some (resign_step passflag (order_root s)
                             (pass_adjusted passflag (order_root s) first),
                 order_root s)
  end.
Proof.
  unfold get_best_move, resign_step. cbv zeta.
  destruct (get_first_child (m_root (order_root s))) as [first|]; [|reflexivity].
  destruct (first_visit first); [reflexivity|].
  change (get_to_move (m_rootstate s)) with (get_to_move (m_rootstate (order_root s))).
  fold (pass_adjusted passflag (order_root s) first).
  destruct (pass_adjusted passflag (order_root s) first) as [mv sc]. reflexivity.
Qed.

(** The move chosen by the pass rules is the first child's, PASS, or the
    move of the child [get_nopass_child] returns. *)
Lemma pass_adjusted_range (passflag : Z) (s : UCTSearch GameState) (first : UCTNode) :
  let mv := fst (pass_adjusted passflag s first) in
  mv = get_move first \/ mv = PASS
  \/ exists nopass,
      get_nopass_child (m_rootstate s) (m_root s) = Some nopass
      /\ mv = get_move nopass.
Proof.
  unfold pass_adjusted, nopass_choice. cbv zeta.
  destruct (truthy _).
  - destruct (get_move first =? PASS); [|auto].
    destruct (get_nopass_child _ _) as [nopass|]; simpl; eauto.
  - destruct (negb (cfg_dumbpass cfg) && (get_move first =? PASS)).
    + destruct (passing_loses _ _); [|auto].
      destruct (get_nopass_child _ _) as [nopass|]; simpl; eauto.
    + destruct (negb (cfg_dumbpass cfg) && _); [|auto].
      destruct (passing_loses _ _); simpl; auto.
Qed.

(** X3: [get_best_move] fails (a null pointer is dereferenced) exactly
    when the reordered root has no child; otherwise the search object it
    leaves is the reordered one, and the move it returns is the first
    child's move, the move of the child [get_nopass_child] found, PASS or
    RESIGN. *)
Theorem get_best_move_result (passflag : Z) (s : UCTSearch GameState) :
  match get_best_move passflag s with
  | None => get_first_child (m_root (order_root s)) = None
  | Some (mv, s') =>
      s' = order_root s
      /\ exists first,
          get_first_child (m_root (order_root s)) = Some first
          /\ (mv = get_move first \/ mv = PASS \/ mv = RESIGN
              \/ exists nopass,
                  get_nopass_child (m_rootstate s) (m_root (order_root s)) = Some nopass
                  /\ mv = get_move nopass)
  end.
Proof.
  rewrite get_best_move_unfold.
  destruct (get_first_child (m_root (order_root s))) as [first|]; [|reflexivity].
  destruct (first_visit first).
  - split; [reflexivity|]. exists first. auto.
  - split; [reflexivity|]. exists first. split; [reflexivity|].
    pose proof (pass_adjusted_range passflag (order_root s) first) as Hr.
    unfold resign_step. cbv zeta in Hr.
    destruct (negb _); [destruct (should_resign _ _ _)|];
      [auto | | ]; destruct Hr as [Hr | [Hr | Hr]]; auto.
Qed.

(** X4: with NORESIGN in the pass flags, or with a resign percentage of
    0, [get_best_move] returns what the pass rules chose: RESIGN is never
    substituted. *)
Theorem get_best_move_noresign (passflag : Z) (s : UCTSearch GameState)
        (mv : Z) (s' : UCTSearch GameState) :
  Z.land passflag NORESIGN <> 0 \/ cfg_resignpct cfg = 0 ->
  get_best_move passflag s = Some (mv, s') ->
  exists first,
    get_first_child (m_root (order_root s)) = Some first
    /\ mv = (if first_visit first then get_move first
             else fst (pass_adjusted passflag (order_root s) first))
    /\ (mv = get_move first \/ mv = PASS
        \/ exists nopass,
            get_nopass_child (m_rootstate s) (m_root (order_root s)) = Some nopass
            /\ mv = get_move nopass).
Proof.
  intros Hno. rewrite get_best_move_unfold.
  destruct (get_first_child (m_root (order_root s))) as [first|]; [|discriminate].
  assert (Hres : forall sc, should_resign (order_root s) passflag sc = false).
  { intros sc. unfold should_resign, truthy. destruct Hno as [Hflag|Hpct].
    - apply Z.eqb_neq in Hflag. rewrite Hflag. reflexivity.
    - rewrite Hpct. destruct (negb _); reflexivity. }
  pose proof (pass_adjusted_range passflag (order_root s) first) as Hr.
  cbv zeta in Hr.
  destruct (first_visit first) eqn:Hv.
  - intros [= <- _]. exists first. rewrite Hv. repeat split; auto.
  - unfold resign_step. rewrite Hres.
    assert (Hmv : (if negb (fst (pass_adjusted passflag (order_root s) first) =? PASS)
                   then fst (pass_adjusted passflag (order_root s) first)
                   else fst (pass_adjusted passflag (order_root s) first))
                  = fst (pass_adjusted passflag (order_root s) first))
      by (destruct (negb _); reflexivity).
    rewrite Hmv. intros [= <- _]. exists first. rewrite Hv.
    split; [reflexivity|]. split; [reflexivity|]. exact Hr.
Qed.

Lemma pass_adjusted_nopass (passflag : Z) (s : UCTSearch GameState)
      (first nopass : UCTNode) :
  Z.land passflag NOPASS <> 0 ->
  get_nopass_child (m_rootstate s) (m_root s) = Some nopass ->
  get_move nopass <> PASS ->
  fst (pass_adjusted passflag s first) <> PASS.
Proof.
  intros Hflag Hnopass Hmove. unfold pass_adjusted, truthy. cbv zeta.
  apply Z.eqb_neq in Hflag. rewrite Hflag, Hnopass. simpl negb. cbv iota.
  destruct (Z.eqb_spec (get_move first) PASS); simpl; assumption.
Qed.

(** X5: with NOPASS in the pass flags, a visited first child and a child
    returned by [get_nopass_child] whose move is not PASS, [get_best_move]
    does not return PASS. *)
Theorem get_best_move_nopass (passflag : Z) (s : UCTSearch GameState)
        (first nopass : UCTNode) (mv : Z) (s' : UCTSearch GameState) :
  PASS <> RESIGN ->
  Z.land passflag NOPASS <> 0 ->
  get_first_child (m_root (order_root s)) = Some first ->
  first_visit first = false ->
  get_nopass_child (m_rootstate s) (m_root (order_root s)) = Some nopass ->
  get_move nopass <> PASS ->
  get_best_move passflag s = Some (mv, s') ->
  mv <> PASS.
Proof.
  intros Hsent Hflag Hfirst Hvisit Hnopass Hmove.
  rewrite get_best_move_unfold, Hfirst, Hvisit.
  pose proof (pass_adjusted_nopass passflag (order_root s) first nopass
                                   Hflag Hnopass Hmove) as Hne.
  unfold resign_step. intros [= <- _].
  destruct (Z.eqb_spec (fst (pass_adjusted passflag (order_root s) first)) PASS);
    [contradiction|].
  simpl. destruct (should_resign _ _ _); congruence.
Qed.

(** X6: without NOPASS and with the pass heuristics on, when the visited
    first child is PASS: if passing does not lose, or loses but
    [get_nopass_child] finds nothing, PASS is returned; if passing loses and
    a child is found, that child's move is taken, with score 1.0 when it was
    never visited, and goes through the resignation step. *)
Theorem get_best_move_pass_on_top (passflag : Z) (s : UCTSearch GameState)
        (first : UCTNode) :
  Z.land passflag NOPASS = 0 ->
  cfg_dumbpass cfg = false ->
  get_first_child (m_root (order_root s)) = Some first ->
  get_move first = PASS ->
  first_visit first = false ->
  let color := get_to_move (m_rootstate s) in
  let score := final_score (m_rootstate s) in
  get_best_move passflag s =
  Some (if passing_loses score color then
          match get_nopass_child (m_rootstate s) (m_root (order_root s)) with
          | Some nopass =>
              resign_step passflag (order_root s)
                (get_move nopass,
                 if first_visit nopass then F32.one else get_eval color nopass)
          | None => PASS
          end
        else PASS,
        order_root s).
Proof.
  intros Hflag Hdumb Hfirst Hmove Hvisit color score.
  rewrite get_best_move_unfold, Hfirst, Hvisit.
  unfold pass_adjusted, truthy. cbv zeta.
  rewrite Hflag, Hdumb, Hmove, !Z.eqb_refl. simpl negb. simpl andb. cbv iota.
  change (m_rootstate (order_root s)) with (m_rootstate s).
  fold color score.
  destruct (passing_loses score color).
  - destruct (get_nopass_child _ _) as [nopass|]; [reflexivity|].
    unfold resign_step. simpl. rewrite Z.eqb_refl. reflexivity.
  - unfold resign_step. simpl. rewrite Z.eqb_refl. reflexivity.
Qed.

(** X7: with [cfg_dumbpass] set and without NOPASS, the visited first
    child's move goes to the resignation step as it is: neither the final
    score nor the opponent's last move is looked at. *)
Theorem get_best_move_dumbpass (passflag : Z) (s : UCTSearch GameState)
        (first : UCTNode) :
  Z.land passflag NOPASS = 0 ->
  cfg_dumbpass cfg = true ->
  get_first_child (m_root (order_root s)) = Some first ->
  first_visit first = false ->
  get_best_move passflag s =
  Some (resign_step passflag (order_root s)
          (get_move first, get_eval (get_to_move (m_rootstate s)) first),
        order_root s).
Proof.
  intros Hflag Hdumb Hfirst Hvisit.
  rewrite get_best_move_unfold, Hfirst, Hvisit.
  unfold pass_adjusted, truthy. cbv zeta.
  rewrite Hflag, Hdumb. reflexivity.
Qed.

(** *** More on [play_simulation] *)

Lemma calls_on_singleton d c j c' :
  calls_on d c [(j, c')] = if Nat.eqb j d && NodeCall_eqb c' c then 1%nat else 0%nat.
Proof. unfold calls_on. simpl. destruct (Nat.eqb j d && NodeCall_eqb c' c); reflexivity. Qed.

(** What the descent phase can return. *)
Lemma descend_cases (self : Self) table nodes st color n r d :
  descend self table nodes st color n r = Some d ->
  (d = mkOutcome r n st nodes table [])
  \/ (exists i next,
        has_children n && negb (valid r) = true
        /\ select_child color n = Some (i, next)
        /\ d = mkOutcome r (set_child i (invalidate next) n)
                         (play_move (get_move next) st) nodes table
                         [(1%nat, CallInvalidate)])
  \/ (exists i next st' o,
        has_children n && negb (valid r) = true
        /\ select_child color n = Some (i, next)
        /\ self table nodes st' next = Some o
        /\ d = mkOutcome (out_result o) (set_child i (out_node o) n)
                         (out_state o) (out_nodes o) (out_table o)
                         (deeper (out_calls o))).
Proof.
  unfold descend, recurse.
  destruct (has_children n && negb (valid r)) eqn:Hcond; [|intros [= <-]; auto].
  destruct (select_child color n) as [[i next]|] eqn:Hsel; [|intros [= <-]; auto].
  destruct (negb (get_move next =? PASS)).
  - destruct (negb (superko (play_move (get_move next) st))).
    + destruct (self table nodes (play_move (get_move next) st) next) as [o|] eqn:Hs;
        [|discriminate].
      intros [= <-]. right. right. exists i, next, (play_move (get_move next) st), o. auto.
    + intros [= <-]. right. left. exists i, next. auto.
  - destruct (self table nodes (play_pass st) next) as [o|] eqn:Hs; [|discriminate].
    intros [= <-]. right. right. exists i, next, (play_pass st), o. auto.
Qed.

(** The simulation, cut into its phases. *)
Lemma simulation_cases (self : Self) table nodes st node o :
  simulation self table nodes st node = Some o ->
  exists r n2 nodes2 ev d,
    expand_leaf nodes st
                (virtual_loss (tt_sync table (get_hash st) (get_komi st) node))
                SearchResult_default = (r, n2, nodes2, ev)
    /\ descend self table nodes2 st (get_to_move st) n2 r = Some d
    /\ out_result o = out_result d
    /\ out_node o = virtual_loss_undo
                      (if valid (out_result d)
                       then update (eval (out_result d)) (out_node d)
                       else out_node d)
    /\ out_nodes o = out_nodes d
    /\ out_state o = out_state d
    /\ out_calls o =
       [(0%nat, CallVirtualLoss)] ++ ev ++ out_calls d
         ++ (if valid (out_result d) then [(0%nat, CallUpdate)] else [])
         ++ [(0%nat, CallVirtualLossUndo)].
Proof.
  unfold simulation.
  destruct (expand_leaf _ _ _ _) as [[[r n2] nodes2] ev] eqn:He.
  destruct (descend _ _ _ _ _ _ _) as [d|] eqn:Hd; [|discriminate].
  rewrite backup_eq. intros [= <-].
  exists r, n2, nodes2, ev, d. repeat split; try assumption; reflexivity.
Qed.

Lemma expand_leaf_full nodes st n r r' n' nodes' ev :
  MAX_TREE_SIZE <= nodes ->
  expand_leaf nodes st n r = (r', n', nodes', ev) ->
  nodes' = nodes /\ calls_of CallCreateChildren ev = 0%nat.
Proof.
  intros Hfull. unfold expand_leaf.
  destruct (negb (has_children n)); [|intros [= _ _ <- <-]; auto].
  destruct (get_passes st >=? 2); [intros [= _ _ <- <-]; auto|].
  destruct (Z.ltb_spec nodes MAX_TREE_SIZE); [lia|].
  intros [= _ _ <- <-]; auto.
Qed.

(** X8: once the node count has reached the cap, a simulation calls
    [create_children] on no node of its path and leaves the count as it is. *)
Theorem play_simulation_full_tree (fuel : nat) (table : TTable) (nodes : Z)
        (st : GameState) (node : UCTNode) (o : Outcome) :
  MAX_TREE_SIZE <= nodes ->
  play_simulation fuel table nodes st node = Some o ->
  calls_of CallCreateChildren (out_calls o) = 0%nat /\ out_nodes o = nodes.
Proof.
  intros Hfull. revert table st node o.
  induction fuel as [|fuel IH]; [discriminate|].
  intros table st node o. rewrite play_simulation_S. intros Ho.
  apply simulation_cases in Ho
    as (r & n2 & nodes2 & ev & d & He & Hd & _ & _ & Hnodes & _ & Hcalls).
  apply (expand_leaf_full _ _ _ _ _ _ _ _ Hfull) in He as [-> Hev].
  rewrite Hcalls, Hnodes, !calls_of_app, Hev.
  assert (Hdd : calls_of CallCreateChildren (out_calls d) = 0%nat /\ out_nodes d = nodes).
  { apply descend_cases in Hd
      as [-> | [(i & next & _ & _ & ->) | (i & next & st' & o' & _ & _ & Hs & ->)]];
      simpl; auto.
    rewrite calls_of_deeper. exact (IH _ _ _ _ Hs). }
  destruct Hdd as [-> ->].
  destruct (valid (out_result d)); auto.
Qed.

(** X9: a simulation with a valid result has updated every node it
    entered exactly once: at every depth there are as many updates as
    virtual losses. *)
Theorem play_simulation_valid_updates (fuel : nat) (table : TTable) (nodes : Z)
        (st : GameState) (node : UCTNode) (o : Outcome) :
  play_simulation fuel table nodes st node = Some o ->
  valid (out_result o) = true ->
  forall d, calls_on d CallUpdate (out_calls o) = calls_on d CallVirtualLoss (out_calls o).
Proof.
  revert table nodes st node o.
  induction fuel as [|fuel IH]; [discriminate|].
  intros table nodes st node o. rewrite play_simulation_S. intros Ho Hvalid k.
  apply simulation_cases in Ho
    as (r & n2 & nodes2 & ev & d & He & Hd & Hres & _ & _ & _ & Hcalls).
  rewrite Hres in Hvalid. rewrite Hcalls, Hvalid, !calls_on_app.
  apply expand_leaf_calls in He.
  assert (Hev : forall c, c = CallUpdate \/ c = CallVirtualLoss -> calls_on k c ev = 0%nat).
  { intros c Hc. destruct He as [-> | [-> | ->]], Hc as [-> | ->];
      unfold calls_on; simpl; try reflexivity;
      rewrite Bool.andb_false_r; reflexivity. }
  rewrite !Hev by auto.
  assert (Hdd : calls_on k CallUpdate (out_calls d) = calls_on k CallVirtualLoss (out_calls d)
                /\ calls_on 0 CallUpdate (out_calls d) = 0%nat
                /\ calls_on 0 CallVirtualLoss (out_calls d) = 0%nat).
  { apply descend_cases in Hd
      as [-> | [(i & next & Hc & _ & ->) | (i & next & st' & o' & _ & _ & Hs & ->)]].
    - simpl. auto.
    - simpl in Hvalid. rewrite Hvalid in Hc. rewrite Bool.andb_false_r in Hc. discriminate.
    - simpl in *. rewrite !calls_on_deeper_O.
      destruct k as [|k]; [rewrite !calls_on_deeper_O; auto|].
      rewrite !calls_on_deeper_S. split; [|auto]. exact (IH _ _ _ _ _ Hs Hvalid k). }
  destruct Hdd as (Hk & H0u & H0v).
  rewrite !calls_on_singleton, Hk.
  destruct k as [|k]; simpl; lia.
Qed.

(** X10: the visit count of the node after a simulation is the count the
    transposition sync left, plus one exactly when the result is valid
    (given that [create_children] does not touch the count). *)
Theorem play_simulation_visits (fuel : nat) (table : TTable) (nodes : Z)
        (st : GameState) (node : UCTNode) (o : Outcome) :
  create_keeps_visits ->
  play_simulation fuel table nodes st node = Some o ->
  m_visits (out_node o) =
  m_visits (tt_sync table (get_hash st) (get_komi st) node)
  + (if valid (out_result o) then 1 else 0).
Proof.
  intros Hcreate. destruct fuel as [|fuel]; [discriminate|].
  rewrite play_simulation_S. intros Ho.
  apply simulation_cases in Ho
    as (r & n2 & nodes2 & ev & d & He & Hd & Hres & Hnode & _ & _ & _).
  assert (Hn2 : m_visits n2 = m_visits (tt_sync table (get_hash st) (get_komi st) node)).
  { revert He. unfold expand_leaf.
    destruct (negb (has_children _)); [|intros [= _ <- _ _]; reflexivity].
    destruct (get_passes st >=? 2); [intros [= _ <- _ _]; reflexivity|].
    destruct (nodes <? MAX_TREE_SIZE); [|intros [= _ <- _ _]; reflexivity].
    specialize (Hcreate nodes st
                  (virtual_loss (tt_sync table (get_hash st) (get_komi st) node))).
    destruct (create_children _ _ _) as [[[? ?] ?] ?].
    intros [= _ <- _ _]. exact Hcreate. }
  assert (Hdn : m_visits (out_node d) = m_visits n2).
  { apply descend_cases in Hd
      as [-> | [(i & next & _ & _ & ->) | (i & next & st' & o' & _ & _ & _ & ->)]];
      reflexivity. }
  rewrite Hnode, Hres.
  destruct (valid (out_result d)); simpl; lia.
Qed.

Lemma calls_of_singleton c j c' :
  calls_of c [(j, c')] = if NodeCall_eqb c' c then 1%nat else 0%nat.
Proof. unfold calls_of. simpl. destruct (NodeCall_eqb c' c); reflexivity. Qed.

Lemma expand_leaf_has_children nodes st n r r' n' nodes' ev :
  has_children n = true ->
  expand_leaf nodes st n r = (r', n', nodes', ev) ->
  r' = r /\ n' = n /\ nodes' = nodes /\ ev = [].
Proof.
  intros Hc. unfold expand_leaf. rewrite Hc. intros [= <- <- <- <-]. auto.
Qed.

(** X11: in a tree that only this thread changes (a failed expansion adds
    no children), a simulation runs the evaluator at most once: over the
    whole path, [create_children] and [eval_state] are called at most once
    together. *)
Theorem play_simulation_one_evaluation (fuel : nat) (table : TTable) (nodes : Z)
        (st : GameState) (node : UCTNode) (o : Outcome) :
  failed_create_adds_nothing ->
  play_simulation fuel table nodes st node = Some o ->
  (calls_of CallCreateChildren (out_calls o)
   + calls_of CallEvalState (out_calls o) <= 1)%nat.
Proof.
  intros Hfail. revert table nodes st node o.
  induction fuel as [|fuel IH]; [discriminate|].
  intros table nodes st node o. rewrite play_simulation_S. intros Ho.
  apply simulation_cases in Ho
    as (r & n2 & nodes2 & ev & d & He & Hd & _ & _ & _ & _ & Hcalls).
  rewrite Hcalls, !calls_of_app.
  destruct (has_children (virtual_loss (tt_sync table (get_hash st) (get_komi st) node)))
    eqn:Hc.
  - apply (expand_leaf_has_children _ _ _ _ _ _ _ _ Hc) in He as (-> & -> & -> & ->).
    assert (Hdd : (calls_of CallCreateChildren (out_calls d)
                   + calls_of CallEvalState (out_calls d) <= 1)%nat).
    { apply descend_cases in Hd
        as [-> | [(i & next & _ & _ & ->) | (i & next & st' & o' & _ & _ & Hs & ->)]].
      - simpl. unfold calls_of. simpl. lia.
      - simpl. unfold calls_of. simpl. lia.
      - simpl. rewrite !calls_of_deeper. exact (IH _ _ _ _ _ Hs). }
    destruct (valid (out_result d)); unfold calls_of in Hdd |- *;
      simpl in Hdd |- *; lia.
  - assert (Hcond : has_children n2 && negb (valid r) = false).
    { destruct (has_children n2 && negb (valid r)) eqn:Hcond; [|reflexivity].
      pose proof (expand_leaf_children _ _ _ _ _ _ _ Hfail He Hcond) as Hch.
      apply andb_prop in Hcond as [Hn2 _].
      unfold has_children in Hn2, Hc. rewrite Hch in Hn2. congruence. }
    assert (Hdd : out_calls d = []).
    { apply descend_cases in Hd
        as [-> | [(i & next & Hcd & _ & _) | (i & next & st' & o' & Hcd & _)]];
        [reflexivity| |]; congruence. }
    rewrite Hdd. apply expand_leaf_calls in He.
    destruct He as [-> | [-> | ->]], (valid (out_result d));
      unfold calls_of; simpl; lia.
Qed.

(** X12: a simulation invalidates at most one child, and a node on its
    path is either entered (one virtual loss) or invalidated, never both. *)
Theorem play_simulation_one_invalidation (fuel : nat) (table : TTable) (nodes : Z)
        (st : GameState) (node : UCTNode) (o : Outcome) :
  play_simulation fuel table nodes st node = Some o ->
  (calls_of CallInvalidate (out_calls o) <= 1)%nat
  /\ forall d, (calls_on d CallInvalidate (out_calls o)
                + calls_on d CallVirtualLoss (out_calls o) <= 1)%nat.
Proof.
  revert table nodes st node o.
  induction fuel as [|fuel IH]; [discriminate|].
  intros table nodes st node o. rewrite play_simulation_S. intros Ho.
  apply simulation_cases in Ho
    as (r & n2 & nodes2 & ev & d & He & Hd & _ & _ & _ & _ & Hcalls).
  rewrite Hcalls. apply expand_leaf_calls in He.
  assert (Hdd : (calls_of CallInvalidate (out_calls d) <= 1)%nat
                /\ (forall c, calls_on 0 c (out_calls d) = 0%nat)
                /\ forall k, (calls_on (S k) CallInvalidate (out_calls d)
                              + calls_on (S k) CallVirtualLoss (out_calls d) <= 1)%nat).
  { apply descend_cases in Hd
      as [-> | [(i & next & _ & _ & ->) | (i & next & st' & o' & _ & _ & Hs & ->)]].
    - simpl. unfold calls_of, calls_on. simpl. auto.
    - simpl. split; [|split].
      + unfold calls_of. simpl. lia.
      + intros c. rewrite calls_on_singleton. reflexivity.
      + intros k. rewrite !calls_on_singleton. destruct k; simpl; lia.
    - simpl. destruct (IH _ _ _ _ _ Hs) as [H1 H2]. split; [|split].
      + rewrite calls_of_deeper. exact H1.
      + intros c. apply calls_on_deeper_O.
      + intros k. rewrite !calls_on_deeper_S. apply H2. }
  destruct Hdd as (Hone & Hzero & Hdeep). split.
  - rewrite !calls_of_app.
    assert (Hev : calls_of CallInvalidate ev = 0%nat)
      by (destruct He as [-> | [-> | ->]]; reflexivity).
    rewrite Hev. destruct (valid (out_result d)); unfold calls_of at 1 3 4; simpl; lia.
  - intros k. rewrite !calls_on_app.
    assert (Hev : forall c, c = CallInvalidate \/ c = CallVirtualLoss ->
                            calls_on k c ev = 0%nat).
    { intros c Hc. destruct He as [-> | [-> | ->]], Hc as [-> | ->];
        rewrite ?calls_on_singleton, ?Bool.andb_false_r; reflexivity. }
    rewrite !Hev by auto.
    assert (Hup : forall c, c = CallInvalidate \/ c = CallVirtualLoss ->
              calls_on k c (if valid (out_result d) then [(0%nat, CallUpdate)] else [])
              = 0%nat).
    { intros c Hc. destruct (valid (out_result d)); [|reflexivity].
      rewrite calls_on_singleton. destruct Hc as [-> | ->];
        rewrite Bool.andb_false_r; reflexivity. }
    rewrite !Hup by auto. rewrite !calls_on_singleton.
    destruct k as [|k]; simpl.
    + rewrite !Hzero. lia.
    + specialize (Hdeep k). lia.
Qed.

(** X13: a simulation changes at most one child of a node that has
    children (the transposition sync leaving the children alone): the
    number of children is kept and all children but one are as before. *)
Theorem play_simulation_one_child (fuel : nat) (table : TTable) (nodes : Z)
        (st : GameState) (node : UCTNode) (o : Outcome) :
  sync_keeps_children ->
  has_children node = true ->
  play_simulation fuel table nodes st node = Some o ->
  length (m_children (out_node o)) = length (m_children node)
  /\ exists i, forall j, j <> i ->
       m_children (out_node o) !! j = m_children node !! j.
Proof.
  intros Hsync Hc. destruct fuel as [|fuel]; [discriminate|].
  rewrite play_simulation_S. intros Ho.
  apply simulation_cases in Ho
    as (r & n2 & nodes2 & ev & d & He & Hd & _ & Hnode & _ & _ & _).
  assert (Hc1 : has_children
                  (virtual_loss (tt_sync table (get_hash st) (get_komi st) node)) = true).
  { unfold has_children in *. simpl. rewrite Hsync. exact Hc. }
  apply (expand_leaf_has_children _ _ _ _ _ _ _ _ Hc1) in He as (-> & -> & -> & ->).
  assert (Hch : m_children (out_node o) = m_children (out_node d)).
  { rewrite Hnode. destruct (valid (out_result d)); reflexivity. }
  rewrite Hch.
  assert (Hsame : m_children
                    (virtual_loss (tt_sync table (get_hash st) (get_komi st) node))
                  = m_children node) by (simpl; apply Hsync).
  apply descend_cases in Hd
    as [-> | [(i & next & _ & _ & ->) | (i & next & st' & o' & _ & _ & _ & ->)]];
    simpl out_node.
  - rewrite Hsame. split; [reflexivity|]. exists 0%nat. reflexivity.
  - unfold set_child. simpl m_children. rewrite Hsync, length_insert.
    split; [reflexivity|]. exists i. intros j Hj.
    apply list_lookup_insert_ne. congruence.
  - unfold set_child. simpl m_children. rewrite Hsync, length_insert.
    split; [reflexivity|]. exists i. intros j Hj.
    apply list_lookup_insert_ne. congruence.
Qed.

(** *** Limits and the root state *)

(** X14: once both limits have been set from 0, the limit predicate fires
    only when the playout counter or the root's visit count has reached the
    largest [int]. *)
Theorem unlimited_never_reached (s : UCTSearch GameState) :
  let s' := set_visit_limit 0 (set_playout_limit 0 s) in
  playout_or_visit_limit_reached s' = true
  <-> INT_MAX <= m_playouts s \/ INT_MAX <= get_visits (m_root s).
Proof.
  unfold playout_or_visit_limit_reached, set_visit_limit, set_playout_limit. simpl.
  rewrite Bool.orb_true_iff, !Z.geb_le. reflexivity.
Qed.

(** X15: [set_gamestate] keeps the tree and the remembered root state
    when komi and board hash agree (whatever else differs in the new state),
    and reroots otherwise, in particular whenever a komi is NaN; in both
    cases the node count is recomputed from the root and the limits and the
    running flag are left alone. *)
Theorem set_gamestate_reroot (g : GameState) (s : UCTSearch GameState) :
  let same := SFeqb (get_komi (m_rootstate s)) (get_komi g)
              && (get_hash (m_rootstate s) =? get_hash g) in
  (m_root (set_gamestate g s), m_rootstate (set_gamestate g s))
  = (if same then (m_root s, m_rootstate s)
     else find_new_root g (m_rootstate s) (m_root s))
  /\ m_nodes (set_gamestate g s) = count_nodes (m_root (set_gamestate g s))
  /\ m_maxplayouts (set_gamestate g s) = m_maxplayouts s
  /\ m_maxvisits (set_gamestate g s) = m_maxvisits s
  /\ m_run (set_gamestate g s) = m_run s
  /\ (get_komi g = S754_nan -> same = false)
  /\ (g = m_rootstate s -> get_komi g <> S754_nan -> same = true).
Proof.
  unfold set_gamestate. cbv zeta.
  destruct (SFeqb (get_komi (m_rootstate s)) (get_komi g)) eqn:Hk;
    destruct (get_hash (m_rootstate s) =? get_hash g) eqn:Hh; simpl;
    try destruct (find_new_root g (m_rootstate s) (m_root s)) as [root rootstate];
    simpl; repeat split; try reflexivity; try discriminate.
  all: try (intros Hnan; rewrite Hnan in Hk; unfold SFeqb, SFcompare in Hk;
            destruct (get_komi (m_rootstate s)); discriminate).
  all: intros -> Hnan; try (rewrite Z.eqb_refl in Hh; discriminate);
       rewrite (SFeqb_refl _ Hnan) in Hk; discriminate.
Qed.

(** *** The loops *)

Lemma simulate_once_frame fuel table s r s' table' evs :
  simulate_once fuel table s = Some (r, s', table', evs) ->
  m_rootstate s' = m_rootstate s
  /\ m_run s' = m_run s
  /\ m_maxplayouts s' = m_maxplayouts s
  /\ m_maxvisits s' = m_maxvisits s
  /\ m_playouts s' = m_playouts s + (if valid r then 1 else 0).
Proof.
  unfold simulate_once.
  destruct (play_simulation _ _ _ _ _) as [o|]; [|discriminate].
  intros [= <- <- _ _]. destruct (valid (out_result o)); simpl; repeat split; lia.
Qed.

Lemma count_valid_cons r results :
  count_valid (r :: results) = (if valid r then 1 else 0) + count_valid results.
Proof. unfold count_valid. simpl. destruct (valid r); simpl length; lia. Qed.

Lemma count_valid_nil : count_valid [] = 0.
Proof. reflexivity. Qed.


Lemma think_loop_playouts (fuel : nat) (time_for_move : Z) (clock : list Z) :
  forall last_update table s s' table' results log,
  think_loop fuel time_for_move clock last_update table s
  = Some (s', table', results, log) ->
  (1 <= length results <= length clock)%nat
  /\ m_playouts s' = m_playouts s + count_valid results
  /\ m_playouts s' <= Z.max (m_playouts s + 1) (m_maxplayouts s)
  /\ m_rootstate s' = m_rootstate s
  /\ m_run s' = m_run s.
Proof.
  induction clock as [|elapsed clock IH]; [discriminate|].
  intros last_update table s s' table' results log. simpl think_loop.
  destruct (simulate_once fuel table s) as [[[[r s1] table1] evs]|] eqn:Hsim;
    [|discriminate].
  apply simulate_once_frame in Hsim as (Hst & Hrun & Hmp & Hmv & Hp).
  destruct (if elapsed - last_update >? 250
            then dump_analysis fuel (to_int (m_playouts s1)) s1 else Some [])
    as [log1|]; [|discriminate].
  cbv zeta.
  destruct (is_running s1 && (elapsed <? time_for_move)
            && negb (playout_or_visit_limit_reached s1)) eqn:Hcont.
  - destruct (think_loop fuel time_for_move clock _ table1 s1)
      as [[[[s2 table2] results2] logs2]|] eqn:Hrec; [|discriminate].
    intros [= <- <- <- <-].
    apply IH in Hrec as (Hlen & Hp2 & Hb2 & Hst2 & Hrun2).
    rewrite count_valid_cons. simpl length.
    apply andb_prop in Hcont as [_ Hlim].
    unfold playout_or_visit_limit_reached in Hlim.
    apply Bool.negb_true_iff, Bool.orb_false_iff in Hlim as [Hlim _].
    destruct (Z.geb_spec (m_playouts s1) (m_maxplayouts s1)); [discriminate|].
    repeat split; try congruence; try lia; destruct (valid r); lia.
  - intros [= <- <- <- <-]. rewrite count_valid_cons, count_valid_nil. simpl length.
    repeat split; try assumption; try lia; destruct (valid r); lia.
Qed.




(** *** The principal variation and the statistics *)

Lemma append_empty (a b : string) : String.append a b = EmptyString -> a = EmptyString.
Proof. destruct a; [reflexivity|discriminate]. Qed.

Lemma join_words_empty (words : list string) :
  Forall (fun w => w <> EmptyString) words ->
  join_words words = EmptyString -> words = [].
Proof.
  destruct words as [|w rest]; [reflexivity|].
  intros Hne Hj. apply Forall_cons in Hne as [Hw _]. exfalso. apply Hw.
  destruct rest; [exact Hj|]. exact (append_empty _ _ Hj).
Qed.

Lemma no_children_lookup n i : has_children n = false -> m_children n !! i = None.
Proof. unfold has_children. destruct (m_children n); [reflexivity|discriminate]. Qed.

(** X19: when no move has an empty text, the string [get_pv] returns is
    the texts of the moves along the chain of best children, joined by
    single spaces; every child on the chain has been visited, the chain is
    shorter than the height of the node, and the state is left as played
    along the chain. *)
Theorem get_pv_follows_chain (fuel : nat) (state : GameState) (parent : UCTNode)
        (pv : string) (state' : GameState) :
  (forall st m, move_to_text st m <> EmptyString) ->
  get_pv fuel state parent = Some (pv, state') ->
  let chain := pv_chain fuel state parent in
  pv = join_words (map (fun p => move_to_text (fst p) (get_move (snd p))) chain)
  /\ Forall (fun p => first_visit (snd p) = false) chain
  /\ (length chain < height parent)%nat
  /\ state' = foldl (fun st p => play_move (get_move (snd p)) st) state chain.
Proof.
  intros Htext. revert state parent pv state'.
  induction fuel as [|fuel IH]; [discriminate|].
  intros state parent pv state'. simpl get_pv. simpl pv_chain.
  assert (Hh : (0 < height parent)%nat) by (destruct parent; simpl; lia).
  destruct (has_children parent) eqn:Hc; simpl negb; cbv iota.
  2: { rewrite (no_children_lookup _ _ Hc). intros [= <- <-]. simpl. auto. }
  destruct (m_children parent !! get_best_root_child (get_to_move state) parent)
    as [best|] eqn:Hbest; [|discriminate].
  destruct (first_visit best) eqn:Hv.
  { intros [= <- <-]. simpl. auto. }
  cbv zeta.
  destruct (get_pv fuel (play_move (get_move best) state) best)
    as [[next st2]|] eqn:Hrec; [|discriminate].
  intros [= <- <-].
  apply IH in Hrec as (Hnext & Hvis & Hlen & Hst).
  apply height_child in Hbest. simpl.
  split; [|split; [|split]].
  - set (texts := map (fun p => move_to_text (fst p) (get_move (snd p)))
                      (pv_chain fuel (play_move (get_move best) state) best)) in *.
    assert (Hne : Forall (fun w => w <> EmptyString) texts).
    { apply Forall_forall. intros w Hw. unfold texts in Hw.
      apply list_elem_of_fmap in Hw as (p & -> & _). apply Htext. }
    destruct texts as [|t ts] eqn:Ht.
    + simpl in Hnext. rewrite Hnext. reflexivity.
    + destruct next as [|a next'] eqn:Hn.
      * symmetry in Hnext. apply (join_words_empty _ Hne) in Hnext. discriminate.
      * rewrite Hnext. reflexivity.
  - constructor; assumption.
  - lia.
  - exact Hst.
Qed.


Lemma dump_stats_loop_spec fuel state color children :
  forall movecount lines,
  dump_stats_loop fuel state color movecount children = Some lines ->
  map sl_visits lines = map get_visits (take (length lines) children)
  /\ (length lines <= length children)%nat
  /\ Z.min (Z.of_nat (length children)) (2 - movecount) <= Z.of_nat (length lines)
  /\ (forall i c, children !! i = Some c -> (i < length lines)%nat ->
                  2 <= movecount + Z.of_nat i -> get_visits c <> 0)
  /\ ((length lines < length children)%nat ->
      exists c, children !! length lines = Some c /\ get_visits c = 0).
Proof.
  induction children as [|node rest IH]; intros movecount lines.
  { intros [= <-]. simpl. split; [reflexivity|]. split; [lia|]. split; [lia|].
    split; [intros i c Hi; discriminate|lia]. }
  simpl dump_stats_loop.
  destruct ((movecount + 1 >? 2) && (get_visits node =? 0)) eqn:Hbreak.
  - intros [= <-]. apply andb_prop in Hbreak as [Hmc Hv].
    apply Z.gtb_lt in Hmc. apply Z.eqb_eq in Hv. simpl.
    split; [reflexivity|]. split; [lia|]. split; [lia|]. split.
    + intros i c _ Hi. lia.
    + intros _. exists node. auto.
  - destruct (get_pv fuel (play_move (get_move node) state) node) as [[pv st2]|];
      [|discriminate].
    destruct (dump_stats_loop fuel state color (movecount + 1) rest) as [lines'|] eqn:Hrec;
      [|discriminate].
    intros [= <-]. apply IH in Hrec as (Hvis & Hlen & Hmin & Hbeyond & Hnext).
    simpl. split; [|split; [lia|split; [lia|split]]].
    + rewrite Hvis. reflexivity.
    + intros i c Hi Hlt Hmc. destruct i as [|i].
      * injection Hi as <-. intros Hv.
        apply Bool.andb_false_iff in Hbreak as [Hb | Hb].
        -- destruct (Z.gtb_spec (movecount + 1) 2); [discriminate|]. lia.
        -- apply Z.eqb_neq in Hb. contradiction.
      * apply (Hbeyond i c Hi); lia.
    + intros Hlt. apply Hnext. lia.
Qed.

(** X20: when the log is on and the reordered parent's first child has
    been visited, [dump_stats] lists the children in order from the first
    one, at least two of them (all when there are fewer), every child listed
    after the second has visits, and the listing stops at the first child
    past the second without visits; when the log is off or the parent has no
    children nothing is listed and the children are not sorted. *)
Theorem dump_stats_lists (fuel : nat) (state : GameState) (parent parent' : UCTNode)
        (lines : list StatLine) :
  dump_stats fuel state parent = Some (lines, parent') ->
  (cfg_quiet cfg = true \/ has_children parent = false ->
   lines = [] /\ parent' = parent)
  /\ (cfg_quiet cfg = false -> has_children parent = true ->
      parent' = sort_children (get_to_move state) parent
      /\ exists first,
          get_first_child parent' = Some first
          /\ if first_visit first then lines = []
             else
               map sl_visits lines
               = map get_visits (take (length lines) (m_children parent'))
               /\ (Nat.min 2 (length (m_children parent')) <= length lines
                   <= length (m_children parent'))%nat
               /\ (forall i c, m_children parent' !! i = Some c ->
                               (2 <= i < length lines)%nat -> get_visits c <> 0)
               /\ ((length lines < length (m_children parent'))%nat ->
                   exists c, m_children parent' !! length lines = Some c
                             /\ get_visits c = 0)).
Proof.
  unfold dump_stats.
  destruct (cfg_quiet cfg) eqn:Hq; simpl orb; cbv iota.
  { intros [= <- <-]. split; [auto|discriminate]. }
  destruct (has_children parent) eqn:Hc; simpl negb; cbv iota.
  2: { intros [= <- <-]. split; [auto|discriminate]. }
  cbv zeta.
  destruct (get_first_child (sort_children (get_to_move state) parent))
    as [first|] eqn:Hfirst; [|discriminate].
  destruct (first_visit first) eqn:Hv.
  { intros [= <- <-]. split; [intros [|]; discriminate|].
    intros _ _. split; [reflexivity|]. exists first. rewrite Hfirst, Hv. auto. }
  destruct (dump_stats_loop _ _ _ _ _) as [lines0|] eqn:Hloop; [|discriminate].
  intros [= <- <-]. split; [intros [|]; discriminate|].
  intros _ _. split; [reflexivity|]. exists first. rewrite Hfirst, Hv.
  split; [reflexivity|].
  apply dump_stats_loop_spec in Hloop as (Hvis & Hlen & Hmin & Hbeyond & Hnext).
  split; [exact Hvis|]. split; [lia|]. split; [|exact Hnext].
  intros i c Hi [Hi2 Hlt]. apply (Hbeyond i c Hi Hlt). lia.
Qed.

(** *** The ends of [think] and [ponder] *)






(** What the end of [think] leaves of the counters. *)
Lemma think_end_frame fuel color passflag s mv s' lines :
  think_end fuel color passflag s = Some (mv, s', lines) ->
  m_run s' = false
  /\ m_playouts s' = m_playouts s
  /\ m_maxplayouts s' = m_maxplayouts s
  /\ m_maxvisits s' = m_maxvisits s.
Proof.
  unfold think_end, stop_search. cbv zeta. simpl.
  destruct (negb (has_children (m_root s))).
  { intros [= _ <- _]. auto. }
  destruct (dump_stats _ _ _) as [[lines0 root]|]; [|discriminate].
  rewrite get_best_move_unfold.
  destruct (get_first_child _) as [first|]; [|discriminate].
  destruct (first_visit first); intros [= _ <- _]; auto.
Qed.

Lemma think_begin_frame color g s :
  let s1 := fst (think_begin color g s) in
  m_playouts s1 = 0
  /\ m_run s1 = true
  /\ m_maxplayouts s1 = m_maxplayouts s
  /\ m_maxvisits s1 = m_maxvisits s.
Proof.
  unfold think_begin, set_gamestate. cbv zeta.
  destruct (negb _ || negb _); [destruct (find_new_root _ _ _)|];
    simpl; destruct (negb (has_children _));
    try destruct (create_children _ _ _) as [[[? ?] ?] ?]; simpl; auto.
Qed.

Lemma think_loop_limits fuel time_for_move clock :
  forall last_update table s s' table' results log,
  think_loop fuel time_for_move clock last_update table s
  = Some (s', table', results, log) ->
  m_maxplayouts s' = m_maxplayouts s /\ m_maxvisits s' = m_maxvisits s.
Proof.
  induction clock as [|e clock IH]; [discriminate|].
  intros last table s s' table' results log. simpl think_loop.
  destruct (simulate_once fuel table s) as [[[[r sa] ta] evs]|] eqn:Hsim;
    [|discriminate].
  apply simulate_once_frame in Hsim as (_ & _ & Hmp & Hmv & _).
  destruct (if e - last >? 250 then _ else _) as [log1|]; [|discriminate].
  cbv zeta. destruct (_ && _ && _).
  - destruct (think_loop _ _ _ _ _ _) as [[[[sb tb] rb] lb]|] eqn:Hrec; [|discriminate].
    intros [= <- _ _ _]. apply IH in Hrec as [? ?]. split; congruence.
  - intros [= <- _ _ _]. auto.
Qed.

(** X22: [think] run by the foreground thread alone: at least one
    simulation is run, the playout counter it leaves is the number of valid
    results of this call, at most the larger of 1 and the playout cap, and
    the search is stopped. *)
Theorem think_counts (fuel : nat) (clock : list Z) (color : Z) (g : GameState)
        (passflag : Z) (table : TTable) (s : UCTSearch GameState)
        (res : Searched Z) :
  think fuel clock color g passflag table s = Some res ->
  (1 <= length (searched_results res) <= length clock)%nat
  /\ m_playouts (searched_search res) = count_valid (searched_results res)
  /\ m_playouts (searched_search res) <= Z.max 1 (m_maxplayouts s)
  /\ m_run (searched_search res) = false
  /\ m_maxplayouts (searched_search res) = m_maxplayouts s
  /\ m_maxvisits (searched_search res) = m_maxvisits s.
Proof.
  unfold think.
  pose proof (think_begin_frame color g s) as Hb. cbv zeta in Hb.
  destruct (think_begin color g s) as [s1 root_eval]. simpl in Hb.
  destruct Hb as (Hp0 & _ & Hmp & Hmv).
  destruct (think_loop _ _ _ _ _ _) as [[[[s2 table2] results] analysis]|] eqn:Hloop;
    [|discriminate].
  destruct (think_end _ _ _ _) as [[[mv s3] stats]|] eqn:Hend; [|discriminate].
  intros [= <-]. simpl.
  pose proof Hloop as Hframe.
  apply think_loop_playouts in Hloop as (Hlen & Hp & Hbound & _ & _).
  apply think_end_frame in Hend as (Hrun & Hp3 & Hmp3 & Hmv3).
  pose proof (think_loop_limits _ _ _ _ _ _ _ _ _ _ Hframe) as Hlim.
  destruct Hlim as [Hmp2 Hmv2].
  repeat split; try lia; try congruence.
Qed.


End Search.

Arguments mkSearched {GameState TTable A}.
Arguments searched_value {GameState TTable A}.
Arguments searched_search {GameState TTable A}.
Arguments searched_table {GameState TTable A}.
Arguments searched_results {GameState TTable A}.
Arguments searched_analysis {GameState TTable A}.
Arguments searched_stats {GameState TTable A}.

(** ** The properties on the sample collaborators *)

Import Sample.

Lemma sample_sync_keeps_virtual_loss : sync_keeps_virtual_loss (TTable := unit).
Proof. intros table hash komi n. reflexivity. Defined.

Lemma sample_create_keeps_virtual_loss :
  create_keeps_virtual_loss (GameState := Position).
Proof. intros nodes st n. simpl. destruct (has_children n); reflexivity. Defined.

Lemma sample_sync_keeps_children : sync_keeps_children (TTable := unit).
Proof. intros table hash komi n. reflexivity. Defined.

Lemma sample_failed_create_adds_nothing :
  failed_create_adds_nothing (GameState := Position).
Proof.
  intros nodes st n. simpl. destruct (has_children n); simpl; [reflexivity|discriminate].
Defined.

(** A simulation from [settled_root] walks two levels down and comes back
    with every virtual loss undone. *)
Lemma play_simulation_virtual_loss_balanced_witness :
  exists o,
    play_simulation PASS MAX_TREE_SIZE VIRTUAL_LOSS_COUNT score_eval
      3%nat tt 3 (position 10 4 0 F32.zero)
      settled_root
    = Some o
    /\ calls_on 0 CallVirtualLoss (out_calls o) = 1%nat
    /\ calls_on 0 CallVirtualLossUndo (out_calls o) = 1%nat
    /\ (forall d, calls_on d CallVirtualLoss (out_calls o)
                  = calls_on d CallVirtualLossUndo (out_calls o))
    /\ m_virtual_loss (out_node o) = 0.
Proof.
  destruct (play_simulation_virtual_loss_balanced
              PASS MAX_TREE_SIZE VIRTUAL_LOSS_COUNT score_eval
              3%nat tt 3 (position 10 4 0 F32.zero)
              settled_root
              sample_sync_keeps_virtual_loss sample_create_keeps_virtual_loss)
    as [Hret Hterm].
  destruct (Hterm sample_sync_keeps_children sample_failed_create_adds_nothing
                  ltac:(vm_compute; lia)) as [o Ho].
  exists o. split; [exact Ho|]. exact (Hret o Ho).
Defined.

(** At [ko_root] the selected child is the ko point: it is invalidated and
    the playout is not counted.  From [deep_root] the same happens one level
    further down. *)
Lemma play_simulation_superko_witness :
  (exists o,
      play_simulation PASS MAX_TREE_SIZE VIRTUAL_LOSS_COUNT score_eval
        1%nat tt 3 (position 10 4 0 F32.zero) ko_root = Some o
      /\ valid (out_result o) = false
      /\ m_children (out_node o) !! 0%nat = Some (invalidate (leaf ko_point 0))
      /\ out_calls o = [(0%nat, CallVirtualLoss); (1%nat, CallInvalidate);
                        (0%nat, CallVirtualLossUndo)])
  /\ (exists r s' evs,
        simulate_once PASS MAX_TREE_SIZE VIRTUAL_LOSS_COUNT score_eval
          3%nat tt (search deep_root (position 10 4 0 F32.zero))
        = Some (r, s', tt, evs)
        /\ calls_of CallInvalidate evs = 1%nat
        /\ valid r = false
        /\ m_playouts s' = m_playouts (search deep_root (position 10 4 0 F32.zero))).
Proof.
  pose proof (play_simulation_superko
                PASS MAX_TREE_SIZE VIRTUAL_LOSS_COUNT score_eval
                3%nat tt 3 (position 10 4 0 F32.zero) ko_root) as [Hlocal _].
  pose proof (play_simulation_superko
                PASS MAX_TREE_SIZE VIRTUAL_LOSS_COUNT score_eval
                3%nat tt 3 (position 10 4 0 F32.zero) deep_root) as [_ [_ Hloop]].
  split.
  - destruct (Hlocal SearchResult_default (virtual_loss VIRTUAL_LOSS_COUNT ko_root)
                     3 [] 0%nat (leaf ko_point 0)
                     eq_refl eq_refl eq_refl eq_refl
                     ltac:(discriminate) eq_refl)
      as (o & H1 & _ & Hv & Hc & Hcalls & _).
    exists o. repeat split; assumption.
  - eexists _, _, _. split; [vm_compute; reflexivity|].
    split; [reflexivity|].
    eapply (Hloop (search deep_root (position 10 4 0 F32.zero)));
      [vm_compute; reflexivity|vm_compute; lia].
Defined.

(** A leaf in a full tree is evaluated, not expanded. *)
Lemma play_simulation_tree_full_witness :
  exists o,
    play_simulation PASS MAX_TREE_SIZE VIRTUAL_LOSS_COUNT score_eval
      1%nat tt 100 (position 10 4 0 F32.zero) (leaf 4 0) = Some o
    /\ out_result o = from_eval F32.lit_0_5
    /\ valid (out_result o) = true
    /\ m_visits (out_node o) = 1
    /\ out_nodes o = 100.
Proof.
  destruct (play_simulation_tree_full
              (GS := position_ops) (NP := policy) (TT := table_ops)
              PASS MAX_TREE_SIZE VIRTUAL_LOSS_COUNT score_eval
              0%nat tt 100 (position 10 4 0 F32.zero) (leaf 4 0)
              eq_refl ltac:(vm_compute; reflexivity) ltac:(vm_compute; discriminate))
    as (o & Ho & Hr & Hv & _ & _ & Hn & Hnodes).
  exists o. repeat split; try assumption.
  rewrite Hn. reflexivity.
Defined.

(** A leaf after two passes is scored: White is ahead, so Black's
    evaluation is 0. *)
Lemma play_simulation_double_pass_witness :
  exists o,
    play_simulation PASS MAX_TREE_SIZE VIRTUAL_LOSS_COUNT score_eval
      1%nat tt 3 (position 10 PASS 2 (F32.of_Z (-7))) (leaf PASS 0) = Some o
    /\ out_result o = mkSearchResult true F32.zero
    /\ out_calls o =
       [(0%nat, CallVirtualLoss); (0%nat, CallUpdate); (0%nat, CallVirtualLossUndo)]
    /\ out_nodes o = 3.
Proof.
  destruct (play_simulation_double_pass
              (GS := position_ops) (NP := policy) (TT := table_ops)
              PASS MAX_TREE_SIZE VIRTUAL_LOSS_COUNT score_eval
              0%nat tt 3 (position 10 PASS 2 (F32.of_Z (-7))) (leaf PASS 0)
              eq_refl ltac:(vm_compute; discriminate))
    as (o & Ho & Hr & _ & Hcalls & _ & _ & Hnodes & _).
  exists o. repeat split; assumption.
Defined.

(** The opponent has passed and the score is level: pass out.  The
    opponent has passed and Black is behind: play on with the first child. *)
Lemma get_best_move_pass_out_witness :
  get_best_move PASS RESIGN BLACK WHITE (config 0) NORMAL
    (search (visited_root 600) (position 10 PASS 1 F32.zero))
  = Some (PASS, search (visited_root 600) (position 10 PASS 1 F32.zero))
  /\ get_best_move PASS RESIGN BLACK WHITE (config 0) NORMAL
       (search (visited_root 600) (position 10 PASS 1 (F32.of_Z (-7))))
     = Some (4, search (visited_root 600) (position 10 PASS 1 (F32.of_Z (-7)))).
Proof.
  split.
  - exact (get_best_move_pass_out (GS := position_ops) (NP := policy) PASS RESIGN BLACK WHITE (config 0) NORMAL
             (search (visited_root 600) (position 10 PASS 1 F32.zero)) (leaf 4 7)
             eq_refl eq_refl eq_refl ltac:(discriminate) eq_refl eq_refl).
  - exact (get_best_move_pass_out (GS := position_ops) (NP := policy) PASS RESIGN BLACK WHITE (config 0) NORMAL
             (search (visited_root 600) (position 10 PASS 1 (F32.of_Z (-7)))) (leaf 4 7)
             eq_refl eq_refl eq_refl ltac:(discriminate) eq_refl eq_refl).
Defined.

(** A root whose first child was never visited. *)
Lemma get_best_move_unvisited_witness :
  get_best_move PASS RESIGN BLACK WHITE (config 0) NORMAL
    (search fresh_root (position 200 PASS 1 F32.zero))
  = Some (4, search fresh_root (position 200 PASS 1 F32.zero)).
Proof.
  exact (get_best_move_unvisited (GS := position_ops) (NP := policy) PASS RESIGN BLACK WHITE (config 0) NORMAL
           (search fresh_root (position 200 PASS 1 F32.zero)) (leaf 4 0)
           eq_refl eq_refl).
Defined.

(** The scenario, on the sample position. *)
Lemma should_resign_scenario_witness :
  should_resign WHITE (config 100) (search (visited_root 600) (position 200 4 0 F32.zero))
                NORMAL (F32.decimal 2 100) = true
  /\ should_resign WHITE (config 100) (search (visited_root 600) (position 80 4 0 F32.zero))
                   NORMAL (F32.decimal 2 100) = false.
Proof.
  split.
  - exact (proj1 (should_resign_scenario (GS := position_ops) WHITE (config 100)
                    (search (visited_root 600) (position 200 4 0 F32.zero)) NORMAL
                    eq_refl eq_refl eq_refl eq_refl eq_refl) eq_refl).
  - exact (proj2 (should_resign_scenario (GS := position_ops) WHITE (config 100)
                    (search (visited_root 600) (position 80 4 0 F32.zero)) NORMAL
                    eq_refl eq_refl eq_refl eq_refl eq_refl) eq_refl).
Defined.

(** C2: with the playout cap configured as 0, the constructor makes the
    limit the largest [int] (unlimited), yet [should_resign] compares the
    visits with [min(500, 0)]: a root with 100 visits resigns. *)
Lemma should_resign_unlimited_few_visits :
  m_maxplayouts (UCTSearch_new PASS (config 0) (position 200 4 0 F32.zero)
                               0 0 false 0 0) = INT_MAX
  /\ get_visits (m_root (search (visited_root 100) (position 200 4 0 F32.zero))) = 100
  /\ Z.min 500 (cfg_max_playouts (config 0)) = 0
  /\ should_resign WHITE (config 0)
                   (search (visited_root 100) (position 200 4 0 F32.zero))
                   NORMAL (F32.decimal 2 100) = true.
Proof. repeat split. Qed.

(** ** Further runs on the sample collaborators *)

Lemma sample_create_keeps_visits : create_keeps_visits (GameState := Position).
Proof. intros nodes st n. simpl. destruct (has_children n); reflexivity. Defined.

Lemma sample_text_nonempty :
  forall (st : Position) (m : Z), move_to_text st m <> EmptyString.
Proof. intros st m. simpl. unfold move_text. destruct (m =? PASS); discriminate. Defined.




Lemma should_resign_gates_witness :
  Z.land NORMAL NORESIGN = 0
  /\ cfg_resignpct (config 100) <> 0
  /\ Z.min 500 (cfg_max_playouts (config 100)) <= 600
  /\ to_size_t (19 * 19) / 4 < 200
  /\ F32.gtb (F32.decimal 2 100)
       (F32.mul F32.lit_0_01 (F32.of_Z 10)) = false.
Proof.
  exact (should_resign_gates (GS := position_ops) WHITE (config 100)
           (search (visited_root 600) (position 200 4 0 F32.zero)) NORMAL
           (F32.decimal 2 100) ltac:(vm_compute; reflexivity)).
Defined.

Lemma should_resign_monotone_witness :
  should_resign WHITE (config 100)
                (search (visited_root 600) (position 200 4 0 F32.zero))
                NORMAL (F32.decimal 1 100) = true.
Proof.
  exact (should_resign_monotone (GS := position_ops) WHITE (config 100)
           (search (visited_root 600) (position 200 4 0 F32.zero)) NORMAL
           (F32.decimal 2 100) (F32.decimal 1 100)
           ltac:(vm_compute; reflexivity) ltac:(vm_compute; reflexivity)).
Defined.

Lemma get_best_move_noresign_witness :
  exists first,
    get_first_child (visited_root 600) = Some first
    /\ 4 = get_move first.
Proof.
  destruct (get_best_move_noresign (GS := position_ops) (NP := policy)
              PASS RESIGN BLACK WHITE (config 100) NORESIGN
              (search (visited_root 600) (position 200 4 0 F32.zero))
              4 (search (visited_root 600) (position 200 4 0 F32.zero))
              ltac:(left; vm_compute; discriminate) ltac:(vm_compute; reflexivity))
    as (first & Hfirst & Hmv & _).
  exists first. split; [exact Hfirst|].
  rewrite Hmv. injection Hfirst as <-. reflexivity.
Defined.

Lemma get_best_move_nopass_witness : 5 <> PASS.
Proof.
  exact (get_best_move_nopass (GS := position_ops) (NP := policy)
           PASS RESIGN BLACK WHITE (config 100) NOPASS
           (search pass_root (position 10 4 0 F32.zero))
           (leaf PASS 30) (leaf 5 20) 5 (search pass_root (position 10 4 0 F32.zero))
           ltac:(discriminate) ltac:(vm_compute; discriminate) eq_refl eq_refl eq_refl
           ltac:(discriminate) ltac:(vm_compute; reflexivity)).
Defined.

Lemma get_best_move_pass_on_top_witness :
  get_best_move PASS RESIGN BLACK WHITE (config 100) NORMAL
    (search pass_root (position 10 4 0 (F32.of_Z (-7))))
  = Some (5, search pass_root (position 10 4 0 (F32.of_Z (-7))))
  /\ get_best_move PASS RESIGN BLACK WHITE (config 100) NORMAL
       (search pass_root (position 10 4 0 (F32.of_Z 7)))
     = Some (PASS, search pass_root (position 10 4 0 (F32.of_Z 7))).
Proof.
  split.
  - exact (get_best_move_pass_on_top (GS := position_ops) (NP := policy)
             PASS RESIGN BLACK WHITE (config 100) NORMAL
             (search pass_root (position 10 4 0 (F32.of_Z (-7)))) (leaf PASS 30)
             eq_refl eq_refl eq_refl eq_refl eq_refl).
  - exact (get_best_move_pass_on_top (GS := position_ops) (NP := policy)
             PASS RESIGN BLACK WHITE (config 100) NORMAL
             (search pass_root (position 10 4 0 (F32.of_Z 7))) (leaf PASS 30)
             eq_refl eq_refl eq_refl eq_refl eq_refl).
Defined.

Lemma get_best_move_dumbpass_witness :
  get_best_move PASS RESIGN BLACK WHITE dumb NORMAL
    (search pass_root (position 10 4 0 (F32.of_Z (-7))))
  = Some (PASS, search pass_root (position 10 4 0 (F32.of_Z (-7)))).
Proof.
  exact (get_best_move_dumbpass (GS := position_ops) (NP := policy)
           PASS RESIGN BLACK WHITE dumb NORMAL
           (search pass_root (position 10 4 0 (F32.of_Z (-7)))) (leaf PASS 30)
           eq_refl eq_refl eq_refl eq_refl).
Defined.

Lemma play_simulation_full_tree_witness :
  exists o,
    play_simulation PASS MAX_TREE_SIZE VIRTUAL_LOSS_COUNT score_eval
      3%nat tt 100 (position 10 4 0 F32.zero) settled_root = Some o
    /\ calls_of CallCreateChildren (out_calls o) = 0%nat
    /\ calls_of CallEvalState (out_calls o) = 1%nat
    /\ out_nodes o = 100.
Proof.
  eexists. split; [vm_compute; reflexivity|].
  split; [|split; reflexivity].
  eapply (play_simulation_full_tree (GS := position_ops) (NP := policy) (TT := table_ops)
            PASS MAX_TREE_SIZE VIRTUAL_LOSS_COUNT score_eval
            3%nat tt 100 (position 10 4 0 F32.zero) settled_root);
    [vm_compute; discriminate|vm_compute; reflexivity].
Defined.

Lemma play_simulation_valid_updates_witness :
  exists o,
    play_simulation PASS MAX_TREE_SIZE VIRTUAL_LOSS_COUNT score_eval
      3%nat tt 3 (position 10 4 0 F32.zero) settled_root = Some o
    /\ valid (out_result o) = true
    /\ forall d, calls_on d CallUpdate (out_calls o)
                 = calls_on d CallVirtualLoss (out_calls o).
Proof.
  eexists. split; [vm_compute; reflexivity|]. split; [reflexivity|].
  eapply (play_simulation_valid_updates
            (GS := position_ops) (NP := policy) (TT := table_ops)
            PASS MAX_TREE_SIZE VIRTUAL_LOSS_COUNT score_eval
            3%nat tt 3 (position 10 4 0 F32.zero) settled_root);
    [vm_compute; reflexivity|reflexivity].
Defined.

Lemma play_simulation_visits_witness :
  exists o,
    play_simulation PASS MAX_TREE_SIZE VIRTUAL_LOSS_COUNT score_eval
      3%nat tt 3 (position 10 4 0 F32.zero) settled_root = Some o
    /\ m_visits (out_node o) = 9 + 1.
Proof.
  eexists. split; [vm_compute; reflexivity|].
  etransitivity.
  - eapply (play_simulation_visits
              (GS := position_ops) (NP := policy) (TT := table_ops)
              PASS MAX_TREE_SIZE VIRTUAL_LOSS_COUNT score_eval
              3%nat tt 3 (position 10 4 0 F32.zero) settled_root _
              sample_create_keeps_visits).
    vm_compute. reflexivity.
  - reflexivity.
Defined.

Lemma play_simulation_one_evaluation_witness :
  exists o,
    play_simulation PASS MAX_TREE_SIZE VIRTUAL_LOSS_COUNT score_eval
      3%nat tt 3 (position 10 4 0 F32.zero) settled_root = Some o
    /\ (calls_of CallCreateChildren (out_calls o)
        + calls_of CallEvalState (out_calls o) <= 1)%nat.
Proof.
  eexists. split; [vm_compute; reflexivity|].
  eapply (play_simulation_one_evaluation
            (GS := position_ops) (NP := policy) (TT := table_ops)
            PASS MAX_TREE_SIZE VIRTUAL_LOSS_COUNT score_eval
            3%nat tt 3 (position 10 4 0 F32.zero) settled_root _
            sample_failed_create_adds_nothing).
  vm_compute. reflexivity.
Defined.

Lemma play_simulation_one_invalidation_witness :
  exists o,
    play_simulation PASS MAX_TREE_SIZE VIRTUAL_LOSS_COUNT score_eval
      3%nat tt 3 (position 10 4 0 F32.zero) deep_root = Some o
    /\ calls_of CallInvalidate (out_calls o) = 1%nat
    /\ forall d, (calls_on d CallInvalidate (out_calls o)
                  + calls_on d CallVirtualLoss (out_calls o) <= 1)%nat.
Proof.
  eexists. split; [vm_compute; reflexivity|]. split; [reflexivity|].
  eapply (proj2 (play_simulation_one_invalidation
                   (GS := position_ops) (NP := policy) (TT := table_ops)
                   PASS MAX_TREE_SIZE VIRTUAL_LOSS_COUNT score_eval
                   3%nat tt 3 (position 10 4 0 F32.zero) deep_root _ _)).
  Unshelve. vm_compute. reflexivity.
Defined.

Lemma play_simulation_one_child_witness :
  exists o,
    play_simulation PASS MAX_TREE_SIZE VIRTUAL_LOSS_COUNT score_eval
      3%nat tt 3 (position 10 4 0 F32.zero) settled_root = Some o
    /\ length (m_children (out_node o)) = 2%nat
    /\ exists i, forall j, j <> i ->
         m_children (out_node o) !! j = m_children settled_root !! j.
Proof.
  eexists. split; [vm_compute; reflexivity|].
  eapply (play_simulation_one_child
            (GS := position_ops) (NP := policy) (TT := table_ops)
            PASS MAX_TREE_SIZE VIRTUAL_LOSS_COUNT score_eval
            3%nat tt 3 (position 10 4 0 F32.zero) settled_root _
            sample_sync_keeps_children eq_refl).
  vm_compute. reflexivity.
Defined.




(** The principal variation of [analysed_root] is its most visited child
    and that child's visited child. *)
Lemma get_pv_follows_chain_witness :
  exists state',
    get_pv 5 (position 10 4 0 F32.zero) analysed_root = Some ("E H"%string, state')
    /\ "E H"%string
       = join_words (map (fun p => move_to_text (fst p) (get_move (snd p)))
                         (pv_chain 5 (position 10 4 0 F32.zero) analysed_root))
    /\ (length (pv_chain 5 (position 10 4 0 F32.zero) analysed_root)
        < height analysed_root)%nat.
Proof.
  eexists. split; [vm_compute; reflexivity|].
  pose proof (get_pv_follows_chain
                (GS := position_ops) (DO := driver_ops)
                5 (position 10 4 0 F32.zero) analysed_root "E H"%string _
                sample_text_nonempty ltac:(vm_compute; reflexivity))
    as (Hpv & _ & Hlen & _).
  split; [exact Hpv|exact Hlen].
Defined.

(** Of the three children of [sparse_root] only the first was visited:
    two are listed. *)
Lemma dump_stats_lists_witness :
  exists lines,
    dump_stats (loud 0) 5 (position 10 4 0 F32.zero) sparse_root
    = Some (lines, sparse_root)
    /\ map sl_visits lines = [50; 0]
    /\ exists first,
         get_first_child sparse_root = Some first
         /\ if first_visit first then lines = []
            else
              map sl_visits lines
              = map get_visits (take (length lines) (m_children sparse_root))
              /\ (Nat.min 2 (length (m_children sparse_root)) <= length lines
                  <= length (m_children sparse_root))%nat
              /\ (forall i c, m_children sparse_root !! i = Some c ->
                              (2 <= i < length lines)%nat -> get_visits c <> 0)
              /\ ((length lines < length (m_children sparse_root))%nat ->
                  exists c, m_children sparse_root !! length lines = Some c
                            /\ get_visits c = 0).
Proof.
  eexists. split; [vm_compute; reflexivity|]. split; [reflexivity|].
  exact (proj2 (proj2 (dump_stats_lists
           (GS := position_ops) (NP := policy) (DO := driver_ops) (loud 0)
           5 (position 10 4 0 F32.zero) sparse_root sparse_root _
           ltac:(vm_compute; reflexivity)) eq_refl eq_refl)).
Defined.


(** [think] with a cap of two playouts, and [ponder] with input at the
    second poll, both on a search that had counted playouts before. *)
Lemma think_counts_witness :
  exists res,
    think PASS RESIGN BLACK WHITE MAX_TREE_SIZE VIRTUAL_LOSS_COUNT score_eval (loud 2) 8
      [10; 300; 600; 700] BLACK (position 10 4 0 F32.zero) NORMAL tt
      (mkUCTSearch (position 10 4 0 F32.zero) analysed_root 7 40 false 2 INT_MAX)
    = Some res
    /\ m_playouts (searched_search res) = count_valid (searched_results res)
    /\ m_playouts (searched_search res) <= Z.max 1 2
    /\ m_run (searched_search res) = false.
Proof.
  eexists. split; [vm_compute; reflexivity|].
  pose proof (think_counts
                (GS := position_ops) (NP := policy) (TT := table_ops) (DO := driver_ops)
                PASS RESIGN BLACK WHITE MAX_TREE_SIZE VIRTUAL_LOSS_COUNT score_eval (loud 2) 8
                [10; 300; 600; 700] BLACK (position 10 4 0 F32.zero) NORMAL tt
                (mkUCTSearch (position 10 4 0 F32.zero) analysed_root 7 40 false 2 INT_MAX)
                _ ltac:(vm_compute; reflexivity))
    as (_ & Hp & Hb & Hrun & _).
  split; [exact Hp|]. split; [exact Hb|exact Hrun].
Defined.

